(** * seo-automation: the browser pool and the task scheduler

    A shallow embedding of [BrowserPool] (core/BrowserPool.ts) and of
    [TaskScheduler] (core/TaskScheduler.ts, with [validateTaskConfig] of
    config/validators.ts), and the properties of the resource-pool and
    job-scheduler core stated over it.

    Conventions of the embedding.
    - A public operation is one transition of the state it mutates, as
      when it runs with no other call between its awaits;
      [acquireBrowser] is also given in the two halves around the await
      of the launch, and the store writes of an execution are also steps
      of their own.  [Date.now()] is the argument [now] (milliseconds,
      [Z]); [processTask] takes each of its readings.
    - Times are integers; the arithmetic of the distributed branch of
      [scheduleTask], which leaves the integers, is that of Numbers:
      rationals rounded to binary64 after each operation.
    - Collaborators outside the repository are oracles: the automation
      engine ([launch], [probe]), [uuidv4], the Joi schemas
      ([joiValidate]), [Math.random] ([random]) and the profile manager.
      Exceptions are the [Err] results.
    - Logging and event emission do not touch the modelled state and are
      left out. *)

From Stdlib Require Import List String Ascii Bool Arith ZArith QArith Qminmax Qround Qpower Lia Lqa.
Import ListNotations.
Close Scope Q_scope.
Local Open Scope nat_scope.

Set Implicit Arguments.

(** ** Results of fallible operations *)

Inductive result (E A : Type) : Type :=
| Ok (a : A)
| Err (e : E).
Arguments Ok {E A} a.
Arguments Err {E A} e.

(* ================================================================== *)
(** ** BrowserPool *)
(* ================================================================== *)

Module BrowserPool.

(** A [Browser] is a playwright object, compared with [===]: its identity
    is the index of the launch that made it. *)
Definition Browser := nat.

(** The pool keeps a lease's profile only as a reference. *)
Definition Profile := string.

Record BrowserWrapper : Type := mkWrapper {
  id : string;
  browser : Browser;
  profile : option Profile;
  createdAt : Z;
  lastUsed : Z;
  tasksCompleted : nat;
  inUse : bool
}.

(** [browserQueue] holds the [resolve] callbacks of suspended
    [acquireBrowser] calls; each closes over the profile of its caller. *)
Definition Waiter := Profile.

Record Pool : Type := mkPool {
  browsers : list (string * BrowserWrapper);   (* Map, in insertion order *)
  availableBrowsers : list string;
  browserQueue : list Waiter;
  isShuttingDown : bool;
  created : nat                                (* createBrowser calls so far *)
}.

Inductive BrowserError : Type :=
| PoolShuttingDown      (* 'BrowserPool is shutting down' *)
| CreateFailed.         (* 'Failed to create browser: ...' *)

Definition empty : Pool := mkPool [] [] [] false 0.

(** *** The [Map<string, BrowserWrapper>] *)

Fixpoint map_get (k : string) (m : list (string * BrowserWrapper)) : option BrowserWrapper :=
  match m with
  | [] => None
  | (k', w) :: m' => if String.eqb k' k then Some w else map_get k m'
  end.

Fixpoint map_set (k : string) (w : BrowserWrapper) (m : list (string * BrowserWrapper))
  : list (string * BrowserWrapper) :=
  match m with
  | [] => [(k, w)]
  | (k', w') :: m' => if String.eqb k' k then (k, w) :: m' else (k', w') :: map_set k w m'
  end.

Definition map_delete (k : string) (m : list (string * BrowserWrapper))
  : list (string * BrowserWrapper) :=
  filter (fun e => negb (String.eqb (fst e) k)) m.

Definition size (st : Pool) : nat := List.length (browsers st).

(** *** Field updates *)

Definition set_browsers (m : list (string * BrowserWrapper)) (st : Pool) : Pool :=
  mkPool m (availableBrowsers st) (browserQueue st) (isShuttingDown st) (created st).

Definition set_available (a : list string) (st : Pool) : Pool :=
  mkPool (browsers st) a (browserQueue st) (isShuttingDown st) (created st).

Definition set_queue (q : list Waiter) (st : Pool) : Pool :=
  mkPool (browsers st) (availableBrowsers st) q (isShuttingDown st) (created st).

Definition set_shutting (b : bool) (st : Pool) : Pool :=
  mkPool (browsers st) (availableBrowsers st) (browserQueue st) b (created st).

Definition set_created (n : nat) (st : Pool) : Pool :=
  mkPool (browsers st) (availableBrowsers st) (browserQueue st) (isShuttingDown st) n.

(** A wrapper is a shared object: a write through a reference is seen in
    the map as long as the map still holds that object. *)
Definition write_wrapper (w : BrowserWrapper) (st : Pool) : Pool :=
  match map_get (id w) (browsers st) with
  | Some _ => set_browsers (map_set (id w) w (browsers st)) st
  | None => st
  end.

Section Operations.

(** [options.maxBrowsers]. *)
Variable maxBrowsers : nat.
(** [uuidv4()] at the n-th call of [createBrowser]. *)
Variable uuidv4 : nat -> string.
(** [playwrightExtra.launch] and [createContext] at the n-th call of
    [createBrowser]: the new browser, or [None] when the engine throws. *)
Variable launch : nat -> option Browser.
(** The maintenance health probe (open a blank page and close it). *)
Variable probe : Z -> Browser -> bool.

(** [createBrowser(profile?)]: the profile only selects proxy and
    context options. *)
Definition createBrowser (_ : option Profile) (now : Z) (st : Pool)
  : Pool * result BrowserError BrowserWrapper :=
  let n := created st in
  let st0 := set_created (S n) st in
  match launch n with
  | None => (st0, Err CreateFailed)
  | Some b =>
      let wrapper := mkWrapper (uuidv4 n) b None now now 0 false in
      let st1 := set_browsers (map_set (id wrapper) wrapper (browsers st0)) st0 in
      let st2 := set_available (availableBrowsers st1 ++ [id wrapper]) st1 in
      (st2, Ok wrapper)
  end.

(** [closeBrowser(id)]. *)
Definition closeBrowser (i : string) (st : Pool) : Pool :=
  match map_get i (browsers st) with
  | None => st
  | Some _ =>
      let st1 := set_browsers (map_delete i (browsers st)) st in
      set_available (filter (fun bid => negb (String.eqb bid i)) (availableBrowsers st1)) st1
  end.

(** [recycleBrowser(id)]. *)
Definition recycleBrowser (i : string) (now : Z) (st : Pool)
  : Pool * result BrowserError unit :=
  let st1 := closeBrowser i st in
  if negb (isShuttingDown st1) && (size st1 <? maxBrowsers) then
    match createBrowser None now st1 with
    | (st2, Ok _) => (st2, Ok tt)
    | (st2, Err e) => (st2, Err e)
    end
  else (st1, Ok tt).

(** [getAvailableBrowser()]. *)
Definition getAvailableBrowser (st : Pool) : Pool * option BrowserWrapper :=
  match availableBrowsers st with
  | [] => (st, None)
  | i :: rest => (set_available rest st, map_get i (browsers st))
  end.

(** [findWrapperByBrowser(browser)]. *)
Definition findWrapperByBrowser (b : Browser) (st : Pool) : option BrowserWrapper :=
  option_map snd (find (fun e => Nat.eqb (browser (snd e)) b) (browsers st)).

(** [shouldRecycleBrowser(wrapper)]. *)
Definition shouldRecycleBrowser (w : BrowserWrapper) (now : Z) : bool :=
  let age := (now - createdAt w)%Z in
  if (3600000 <? age)%Z then true
  else if 50 <=? tasksCompleted w then true
  else false.

(** The tail of [acquireBrowser] once a wrapper is in hand (lines
    101-110): it is also the continuation a waiter's callback resumes. *)
Definition lease (w : BrowserWrapper) (p : Profile) (now : Z) (st : Pool) : Pool * Browser :=
  let w' := mkWrapper (id w) (browser w) (Some p) (createdAt w) now (tasksCompleted w) true in
  (write_wrapper w' st, browser w).

Inductive Acquired : Type :=
| Leased (b : Browser)          (* the promise resolved with this browser *)
| Suspended                     (* the caller waits on [browserQueue] *)
| AcquireFailed (e : BrowserError).

(** [acquireBrowser(profile)]. *)
Definition acquireBrowser (p : Profile) (now : Z) (st : Pool) : Pool * Acquired :=
  if isShuttingDown st then (st, AcquireFailed PoolShuttingDown)
  else
    match getAvailableBrowser st with
    | (st1, Some wrapper) =>
        let (st2, b) := lease wrapper p now st1 in (st2, Leased b)
    | (st1, None) =>
        if size st1 <? maxBrowsers then
          match createBrowser (Some p) now st1 with
          | (st2, Ok wrapper) =>
              let (st3, b) := lease wrapper p now st2 in (st3, Leased b)
          | (st2, Err e) => (st2, AcquireFailed e)
          end
        else
          (set_queue (browserQueue st1 ++ [p]) st1, Suspended)
    end.

(** *** Calls that overlap *)

(** [acquireBrowser] is async, and between its size test (line 93) and
    the [browsers.set] of [createBrowser] (line 220) it awaits the launch
    of the engine, while other calls run.  The two halves of a call that
    goes on to create a browser: up to the launch, and from the settled
    launch on.  A call that finds a browser at hand, or suspends, is
    done with its first half. *)
Inductive Started : Type :=
| Finished (r : Acquired)
| Launching (n : nat).          (* awaiting the n-th launch *)

Definition acquireBrowser_start (p : Profile) (now : Z) (st : Pool) : Pool * Started :=
  if isShuttingDown st then (st, Finished (AcquireFailed PoolShuttingDown))
  else
    match getAvailableBrowser st with
    | (st1, Some wrapper) =>
        let (st2, b) := lease wrapper p now st1 in (st2, Finished (Leased b))
    | (st1, None) =>
        if size st1 <? maxBrowsers then
          (set_created (S (created st1)) st1, Launching (created st1))
        else
          (set_queue (browserQueue st1 ++ [p]) st1, Finished Suspended)
    end.

(** [createBrowser] from its settled n-th launch on (lines 203-231). *)
Definition createBrowser_settle (n : nat) (now : Z) (st : Pool)
  : Pool * result BrowserError BrowserWrapper :=
  match launch n with
  | None => (st, Err CreateFailed)
  | Some b =>
      let wrapper := mkWrapper (uuidv4 n) b None now now 0 false in
      let st1 := set_browsers (map_set (id wrapper) wrapper (browsers st)) st in
      let st2 := set_available (availableBrowsers st1 ++ [id wrapper]) st1 in
      (st2, Ok wrapper)
  end.

Definition acquireBrowser_resume (n : nat) (p : Profile) (now : Z) (st : Pool)
  : Pool * Acquired :=
  match createBrowser_settle n now st with
  | (st2, Ok wrapper) =>
      let (st3, b) := lease wrapper p now st2 in (st3, Leased b)
  | (st2, Err e) => (st2, AcquireFailed e)
  end.

Inductive Released : Type :=
| ReleaseDone (resumed : option (Waiter * Browser))
    (* returned; [resumed] is the waiter whose callback ran, with the
       browser its [acquireBrowser] then resolved to *)
| ReleaseFailed (e : BrowserError).

(** [releaseBrowser(browser)]. *)
Definition releaseBrowser (b : Browser) (now : Z) (st : Pool) : Pool * Released :=
  match findWrapperByBrowser b st with
  | None => (st, ReleaseDone None)
  | Some w =>
      let wrapper :=
        mkWrapper (id w) (browser w) None (createdAt w) (lastUsed w)
                  (S (tasksCompleted w)) false in
      let st1 := write_wrapper wrapper st in
      if (50 <=? tasksCompleted wrapper) || shouldRecycleBrowser wrapper now then
        match recycleBrowser (id wrapper) now st1 with
        | (st2, Ok _) => (st2, ReleaseDone None)
        | (st2, Err e) => (st2, ReleaseFailed e)
        end
      else
        let st2 := set_available (availableBrowsers st1 ++ [id wrapper]) st1 in
        match browserQueue st2 with
        | [] => (st2, ReleaseDone None)
        | callback :: rest =>
            let (st3, b') := lease wrapper callback now (set_queue rest st2) in
            (st3, ReleaseDone (Some (callback, b')))
        end
  end.

(** [n] successive [createBrowser()] calls, up to the first that throws. *)
Fixpoint createBrowsers (n : nat) (now : Z) (st : Pool) : Pool * result BrowserError unit :=
  match n with
  | O => (st, Ok tt)
  | S n' =>
      match createBrowser None now st with
      | (st1, Ok _) => createBrowsers n' now st1
      | (st1, Err e) => (st1, Err e)
      end
  end.

(** [initialize()]. *)
Definition initialize (now : Z) (st : Pool) : Pool * result BrowserError unit :=
  let initialCount := Nat.min maxBrowsers 5 in
  createBrowsers initialCount now st.

(** [shutdown()]. *)
Definition shutdown (st : Pool) : Pool :=
  let st1 := set_shutting true st in
  fold_left (fun s e => closeBrowser (id (snd e)) s) (browsers st1) st1.

(** The health-check loop of the maintenance tick.  Iterating a [Map]
    visits, in insertion order, every entry not yet visited, entries
    added during the loop included; [visited] are the keys already
    seen.  A replacement may fail its probe in turn, so the loop is
    bounded by [fuel]; [None] is fuel exhausted. *)
Fixpoint healthChecks (fuel : nat) (visited : list string) (now : Z) (st : Pool)
  : option (Pool * result BrowserError unit) :=
  match fuel with
  | O => None
  | S fuel' =>
      match find (fun e => negb (existsb (String.eqb (fst e)) visited)) (browsers st) with
      | None => Some (st, Ok tt)
      | Some (i, wrapper) =>
          if inUse wrapper then healthChecks fuel' (i :: visited) now st
          else if probe now (browser wrapper) then healthChecks fuel' (i :: visited) now st
          else
            match recycleBrowser i now st with
            | (st1, Ok _) => healthChecks fuel' (i :: visited) now st1
            | (st1, Err e) => Some (st1, Err e)
            end
      end
  end.

(** One tick of the [setInterval] callback of [startMaintenance()]; an
    exception ends the tick (it is caught and logged). *)
Definition maintenance (fuel : nat) (now : Z) (st : Pool) : option Pool :=
  match healthChecks fuel [] now st with
  | None => None
  | Some (st1, Err _) => Some st1
  | Some (st1, Ok _) =>
      let availableCount := List.length (availableBrowsers st1) in
      let minAvailable := Nat.min 3 maxBrowsers in
      if (availableCount <? minAvailable) && (size st1 <? maxBrowsers) then
        let toCreate := minAvailable - availableCount in
        Some (fst (createBrowsers toCreate now st1))
      else Some st1
  end.

End Operations.

(** The snapshot [getStats()] returns. *)
Record PoolStats : Type := mkStats {
  statTotal : nat;
  statAvailable : nat;
  statInUse : nat;
  statTasksCompleted : nat;
  statAvgTasksPerBrowser : Q;
  statOldestBrowser : Z
}.

(** [Math.max(x, ...xs)]. *)
Definition Math_max (x : Z) (xs : list Z) : Z := fold_left Z.max xs x.

(** [getStats()]. *)
Definition getStats (now : Z) (st : Pool) : PoolStats :=
  let wrappers := map snd (browsers st) in
  let completed := fold_left (fun sum w => sum + tasksCompleted w) wrappers 0 in
  mkStats
    (size st)
    (List.length (availableBrowsers st))
    (List.length (filter inUse wrappers))
    completed
    (match wrappers with
     | [] => 0%Q
     | _ => (inject_Z (Z.of_nat completed) / inject_Z (Z.of_nat (List.length wrappers)))%Q
     end)
    (match map (fun w => (now - createdAt w)%Z) wrappers with
     | [] => 0%Z
     | age :: ages => Math_max age ages
     end).

End BrowserPool.

(* ================================================================== *)
(** ** Numbers *)
(* ================================================================== *)

(** A JavaScript Number is an IEEE-754 binary64 value, and [+], [-] and
    [*] give the exact result rounded to the nearest such value, ties to
    the even mantissa.  Finite Numbers are modelled as rationals and the
    rounding as [binary64]: a mantissa of 53 bits at the exponent of the
    argument.  The exponent range is not modelled (no overflow and no
    subnormals): the values rounded here are times in milliseconds. *)

Definition pow2 (e : Z) : Q := Qpower 2 e.

(** The nearest integer, ties to the even one. *)
Definition roundHalfEven (x : Q) : Z :=
  let f := Qfloor x in
  match Qcompare (x - inject_Z f) (1 # 2) with
  | Lt => f
  | Gt => (f + 1)%Z
  | Eq => if Z.even f then f else (f + 1)%Z
  end.

(** The binary exponent of a positive rational:
    [pow2 (exponent q) <= q < pow2 (exponent q + 1)]. *)
Definition exponent (q : Q) : Z :=
  let c := (Z.log2 (Qnum q) - Z.log2 (Zpos (Qden q)))%Z in
  if Qle_bool (pow2 c) q then c else (c - 1)%Z.

Definition roundPositive (q : Q) : Q :=
  let e := (exponent q - 52)%Z in
  (inject_Z (roundHalfEven (q / pow2 e)) * pow2 e)%Q.

Definition binary64 (q : Q) : Q :=
  match Qcompare q 0 with
  | Eq => 0%Q
  | Gt => roundPositive q
  | Lt => (- roundPositive (- q))%Q
  end.

Arguments binary64 : simpl never.

(* ================================================================== *)
(** ** TaskScheduler *)
(* ================================================================== *)

Module TaskScheduler.

Inductive TaskType : Type :=
| WARMUP | SEARCH | TARGET_VISIT | ORGANIC_BROWSE
| VIDEO_WATCH | NEWS_READING | SHOPPING | SOCIAL_ACTIVITY.

Inductive TaskStatus : Type :=
| PENDING | SCHEDULED | RUNNING | COMPLETED | FAILED | CANCELLED.

(** [TaskSchedule]: the [type] tag with the fields [scheduleTask] reads
    for that tag (the source reads them with non-null assertions). *)
Inductive TaskSchedule : Type :=
| immediate
| scheduled (scheduledFor : Z)
| distributed (windowStart windowEnd : Z)
| cron (rule : string).

Record TaskResult : Type := mkResult {
  success : bool;
  resultError : option string;
  duration : Z
}.

Inductive SchedulerError : Type :=
| UnknownTaskType (t : TaskType)             (* 'Unknown task type: ...' *)
| ConfigValidationFailed (details : string)  (* 'Task configuration validation failed: ...' *)
| NoHealthyProfiles                          (* 'No healthy profiles available' *)
| TaskNotFound (taskId : string)             (* 'Task not found: ...' *)
| OnlyFailedRetried.                         (* 'Only failed tasks can be retried' *)

(** The keys of [taskConfigSchema]. *)
Inductive Schema : Type :=
| search_schema | target_visit_schema | organic_browse_schema | warmup_schema.

Definition taskConfigSchema (t : TaskType) : option Schema :=
  match t with
  | SEARCH => Some search_schema
  | TARGET_VISIT => Some target_visit_schema
  | ORGANIC_BROWSE => Some organic_browse_schema
  | WARMUP => Some warmup_schema
  | _ => None
  end.

(** What [selectBestProfile] reads of a profile. *)
Record Profile : Type := mkProfile {
  pid : string;
  region : string;
  lastActive : Z
}.

Definition status_eqb (a b : TaskStatus) : bool :=
  match a, b with
  | PENDING, PENDING | SCHEDULED, SCHEDULED | RUNNING, RUNNING
  | COMPLETED, COMPLETED | FAILED, FAILED | CANCELLED, CANCELLED => true
  | _, _ => false
  end.

(** [CONSTANTS.QUEUE_PRIORITY.NORMAL]. *)
Definition QUEUE_PRIORITY_NORMAL : Z := 5.

Section Model.

(** The type-specific configuration payload, opaque to the scheduler. *)
Variable Config : Type.
(** [schema.validate(config, { abortEarly: false, stripUnknown: true })]:
    the validated value, or the joined error details. *)
Variable joiValidate : Schema -> Config -> result string Config.
(** [config.search?.region]. *)
Variable searchRegion : Config -> option string.
(** [config.TASK_RETRY_ATTEMPTS]. *)
Variable TASK_RETRY_ATTEMPTS : nat.
(** The id the queue gives the n-th job added without a [jobId]. *)
Variable jobIdOf : nat -> string.
(** [Math.random()] at its n-th call. *)
Variable random : nat -> Q.

Record Task : Type := mkTask {
  id : string;
  type : TaskType;
  profileId : string;
  priority : Z;
  status : TaskStatus;
  config : Config;
  schedule : TaskSchedule;
  taskResult : option TaskResult;
  attempts : nat;
  createdAt : Z;
  startedAt : option Z;
  completedAt : option Z;
  error : option string
}.

(** [Partial<Task>] as [createTask] reads it. *)
Record TaskData : Type := mkTaskData {
  dType : TaskType;
  dConfig : Config;
  dProfileId : option string;
  dPriority : option Z;
  dSchedule : option TaskSchedule
}.

Record JobOptions : Type := mkOptions {
  optPriority : Z;
  optAttempts : nat;
  delay : option Q;
  repeat : option string
}.

(** A [Bull.Job<Task>]. *)
Record Job : Type := mkJob {
  jobId : string;
  data : Task;
  opts : JobOptions;
  attemptsMade : nat
}.

Record Scheduler : Type := mkScheduler {
  tasks : list Task;      (* the collection db.tasks *)
  queue : list Job;       (* the Bull queue *)
  added : nat;            (* jobs added to the queue so far *)
  draws : nat             (* Math.random() calls so far *)
}.

Definition init : Scheduler := mkScheduler [] [] 0 0.

(** *** The store *)

Definition insertOne (t : Task) (st : Scheduler) : Scheduler :=
  mkScheduler (tasks st ++ [t]) (queue st) (added st) (draws st).

Definition findOne (taskId : string) (st : Scheduler) : option Task :=
  find (fun t => String.eqb (id t) taskId) (tasks st).

Fixpoint update_first (taskId : string) (f : Task -> Task) (l : list Task) : list Task :=
  match l with
  | [] => []
  | t :: l' => if String.eqb (id t) taskId then f t :: l' else t :: update_first taskId f l'
  end.

(** [db.tasks.updateOne({ id: taskId }, { $set: ... })]. *)
Definition updateOne (taskId : string) (f : Task -> Task) (st : Scheduler) : Scheduler :=
  mkScheduler (update_first taskId f (tasks st)) (queue st) (added st) (draws st).

Definition set_status (s : TaskStatus) (t : Task) : Task :=
  mkTask (id t) (type t) (profileId t) (priority t) s (config t) (schedule t)
         (taskResult t) (attempts t) (createdAt t) (startedAt t) (completedAt t) (error t).

Definition set_attempts (n : nat) (t : Task) : Task :=
  mkTask (id t) (type t) (profileId t) (priority t) (status t) (config t) (schedule t)
         (taskResult t) n (createdAt t) (startedAt t) (completedAt t) (error t).

Definition set_profileId (p : string) (t : Task) : Task :=
  mkTask (id t) (type t) p (priority t) (status t) (config t) (schedule t)
         (taskResult t) (attempts t) (createdAt t) (startedAt t) (completedAt t) (error t).

Definition set_startedAt (d : Z) (t : Task) : Task :=
  mkTask (id t) (type t) (profileId t) (priority t) (status t) (config t) (schedule t)
         (taskResult t) (attempts t) (createdAt t) (Some d) (completedAt t) (error t).

Definition set_completedAt (d : Z) (t : Task) : Task :=
  mkTask (id t) (type t) (profileId t) (priority t) (status t) (config t) (schedule t)
         (taskResult t) (attempts t) (createdAt t) (startedAt t) (Some d) (error t).

Definition set_error (e : option string) (t : Task) : Task :=
  mkTask (id t) (type t) (profileId t) (priority t) (status t) (config t) (schedule t)
         (taskResult t) (attempts t) (createdAt t) (startedAt t) (completedAt t) e.

Definition set_result (r : TaskResult) (t : Task) : Task :=
  mkTask (id t) (type t) (profileId t) (priority t) (status t) (config t) (schedule t)
         (Some r) (attempts t) (createdAt t) (startedAt t) (completedAt t) (error t).

(** *** The queue *)

(** [queue.add(task, options)]. *)
Definition queue_add (t : Task) (o : JobOptions) (st : Scheduler) : Scheduler :=
  mkScheduler (tasks st) (queue st ++ [mkJob (jobIdOf (added st)) t o 0])
              (S (added st)) (draws st).

(** [queue.getJob(id)]. *)
Definition getJob (i : string) (st : Scheduler) : option Job :=
  find (fun j => String.eqb (jobId j) i) (queue st).

(** [job.remove()]. *)
Definition remove (j : Job) (st : Scheduler) : Scheduler :=
  mkScheduler (tasks st)
              (filter (fun j' => negb (String.eqb (jobId j') (jobId j))) (queue st))
              (added st) (draws st).

Definition next_random (st : Scheduler) : Scheduler * Q :=
  (mkScheduler (tasks st) (queue st) (added st) (S (draws st)), random (draws st)).

(** *** validators.ts *)

(** [validateTaskConfig(type, config)]. *)
Definition validateTaskConfig (t : TaskType) (c : Config) : result SchedulerError Config :=
  match taskConfigSchema t with
  | None => Err (UnknownTaskType t)
  | Some schema =>
      match joiValidate schema c with
      | Err errors => Err (ConfigValidationFailed errors)
      | Ok value => Ok value
      end
  end.

(** *** TaskScheduler.ts *)

(** [scheduleTask(task)]. *)
Definition scheduleTask (task : Task) (now : Z) (st : Scheduler) : Scheduler :=
  let jobOptions := mkOptions (priority task) TASK_RETRY_ATTEMPTS None None in
  match schedule task with
  | immediate => queue_add task jobOptions st
  | scheduled scheduledFor =>
      let delay := (scheduledFor - now)%Z in
      queue_add task
        (mkOptions (optPriority jobOptions) (optAttempts jobOptions)
                   (Some (inject_Z delay)) None) st
  | distributed windowStart windowEnd =>
      let windowSize := binary64 (inject_Z windowEnd - inject_Z windowStart) in
      let (st1, u) := next_random st in
      let randomDelay := binary64 (u * windowSize) in
      let scheduledTime := binary64 (inject_Z windowStart + randomDelay) in
      let delayMs := Qmax 0 (binary64 (scheduledTime - inject_Z now)) in
      queue_add task
        (mkOptions (optPriority jobOptions) (optAttempts jobOptions)
                   (Some delayMs) None) st1
  | cron rule =>
      queue_add task
        (mkOptions (optPriority jobOptions) (optAttempts jobOptions)
                   None (Some rule)) st
  end.

(** The stable sort of [suitable.sort((a, b) => a.lastActive - b.lastActive)]. *)
Fixpoint insert_sorted (p : Profile) (l : list Profile) : list Profile :=
  match l with
  | [] => [p]
  | q :: l' =>
      if (lastActive p <=? lastActive q)%Z then p :: l else q :: insert_sorted p l'
  end.

Definition sort_lastActive (l : list Profile) : list Profile :=
  fold_right insert_sorted [] l.

(** [selectBestProfile(task)], on the answer [profiles] of
    [profileManager.getHealthyProfiles(70)]. *)
Definition selectBestProfile (task : Task) (profiles : list Profile) : option Profile :=
  match profiles with
  | [] => None
  | _ =>
      let suitable :=
        match searchRegion (config task) with
        | Some r =>
            if String.eqb r ""%string then profiles
            else filter (fun p => String.eqb (region p) r) profiles
        | None => profiles
        end in
      hd_error (sort_lastActive suitable)
  end.

Definition isWarmup (t : TaskType) : bool :=
  match t with WARMUP => true | _ => false end.

(** The task object [createTask] builds from [taskData] and the
    validated configuration; [uuid] is the answer of [uuidv4()]. *)
Definition newTask (taskData : TaskData) (validatedConfig : Config) (uuid : string)
           (now : Z) : Task :=
  mkTask (String.append "task-" uuid)
         (dType taskData)
         (match dProfileId taskData with Some p => p | None => ""%string end)
         (match dPriority taskData with
          | Some p => if (p =? 0)%Z then QUEUE_PRIORITY_NORMAL else p
          | None => QUEUE_PRIORITY_NORMAL
          end)
         PENDING
         validatedConfig
         (match dSchedule taskData with Some s => s | None => immediate end)
         None 0 now None None None.

(** [!task.profileId && task.type !== TaskType.WARMUP]. *)
Definition needsProfile (task : Task) : bool :=
  String.eqb (profileId task) ""%string && negb (isWarmup (type task)).

(** [createTask(taskData)]. *)
Definition createTask (taskData : TaskData) (uuid : string) (profiles : list Profile)
           (now : Z) (st : Scheduler) : Scheduler * result SchedulerError Task :=
  match validateTaskConfig (dType taskData) (dConfig taskData) with
  | Err e => (st, Err e)
  | Ok validatedConfig =>
      let task := newTask taskData validatedConfig uuid now in
      let assigned :=
        if needsProfile task then
          match selectBestProfile task profiles with
          | None => Err NoHealthyProfiles
          | Some profile => Ok (set_profileId (pid profile) task)
          end
        else Ok task in
      match assigned with
      | Err e => (st, Err e)
      | Ok task' =>
          let st1 := insertOne task' st in
          let st2 := scheduleTask task' now st1 in
          (st2, Ok task')
      end
  end.

(** [cancelTask(taskId)]. *)
Definition cancelTask (taskId : string) (st : Scheduler) : Scheduler :=
  let st1 := updateOne taskId (set_status CANCELLED) st in
  match getJob taskId st1 with
  | Some job => remove job st1
  | None => st1
  end.

(** [retryTask(taskId)]. *)
Definition retryTask (taskId : string) (now : Z) (st : Scheduler)
  : Scheduler * result SchedulerError unit :=
  match findOne taskId st with
  | None => (st, Err (TaskNotFound taskId))
  | Some found =>
      if negb (status_eqb (status found) FAILED) then (st, Err OnlyFailedRetried)
      else
        let task := set_attempts 0 (set_status PENDING found) in
        let st1 := updateOne taskId (fun t => set_attempts 0 (set_status PENDING t)) st in
        (scheduleTask task now st1, Ok tt)
  end.

(** [updateTaskStatus(taskId, status, error?)]. *)
Definition updateTaskStatus (taskId : string) (s : TaskStatus) (err : option string)
           (now : Z) (st : Scheduler) : Scheduler :=
  updateOne taskId
    (fun t =>
       let t1 := set_status s t in
       match s with
       | RUNNING => set_startedAt now t1
       | COMPLETED => set_completedAt now t1
       | FAILED => set_error err (set_completedAt now t1)
       | _ => t1
       end) st.

(** [updateTaskResult(taskId, result)]. *)
Definition updateTaskResult (taskId : string) (r : TaskResult) (now : Z) (st : Scheduler)
  : Scheduler :=
  updateOne taskId
    (fun t => set_completedAt now
                (set_result r (set_status (if success r then COMPLETED else FAILED) t))) st.

(** What the body of the [try] in [processTask] comes to once the task
    is marked running: the executor's result, everything after it going
    through; or the message of whatever was thrown before a result was
    stored (profile lookup, health gate, browser pool, executor); or the
    executor's result and the message of what was thrown once that result
    was stored ([updateProfileStats], [recordTaskCompletion]). *)
Inductive Execution : Type :=
| Returned (r : TaskResult)
| Threw (message : string)
| ThrewAfterStore (r : TaskResult) (message : string).

(** The readings of the clock during one [processTask] call, in program
    order. *)
Record Clock : Type := mkClock {
  startTime : Z;      (* Date.now() at entry *)
  runningAt : Z;      (* new Date() of the RUNNING write *)
  finishTime : Z;     (* Date.now() once the executor has returned *)
  storedAt : Z;       (* new Date() of updateTaskResult *)
  failedAt : Z        (* new Date() of the FAILED write in the catch *)
}.

(** [processTask(job)], as far as the store goes.  [Ok] is the result
    the promise resolves to; [Err] is a rejected promise, with the
    message of the error the [catch] handled. *)
Definition processTask (job : Job) (run : Execution) (clock : Clock) (st : Scheduler)
  : Scheduler * result string TaskResult :=
  let task := data job in
  let st1 := updateTaskStatus (id task) RUNNING None (runningAt clock) st in
  (* result.metrics = { ...result.metrics, duration } *)
  let timed r :=
    mkResult (success r) (resultError r) (finishTime clock - startTime clock) in
  let caught message s :=
    if (Z.of_nat (attemptsMade job) >=? Z.of_nat TASK_RETRY_ATTEMPTS - 1)%Z
    then updateTaskStatus (id task) FAILED (Some message) (failedAt clock) s
    else s in
  match run with
  | Returned r =>
      (updateTaskResult (id task) (timed r) (storedAt clock) st1, Ok (timed r))
  | Threw message => (caught message st1, Err message)
  | ThrewAfterStore r message =>
      (caught message (updateTaskResult (id task) (timed r) (storedAt clock) st1),
       Err message)
  end.

(** [loadPendingTasks()]. *)
Definition loadPendingTasks (now : Z) (st : Scheduler) : Scheduler :=
  let pendingTasks :=
    filter (fun t => status_eqb (status t) PENDING || status_eqb (status t) SCHEDULED)
           (tasks st) in
  fold_left (fun s t => scheduleTask t now s) pendingTasks st.

(** The query of the scheduled-task processor:
    [{ status: SCHEDULED, 'schedule.scheduledFor': { $lte: now } }]. *)
Definition dueScheduledTasks (now : Z) (st : Scheduler) : list Task :=
  filter (fun t =>
            status_eqb (status t) SCHEDULED &&
            match schedule t with
            | scheduled scheduledFor => (scheduledFor <=? now)%Z
            | _ => false
            end) (tasks st).

(** One tick of [startScheduledTaskProcessor()]. *)
Definition scheduledTaskProcessor (now : Z) (st : Scheduler) : Scheduler :=
  fold_left (fun s t => scheduleTask t now s) (dueScheduledTasks now st) st.

(** [bulkCreateTasks(tasks)]; each entry comes with what its
    [createTask] call gets from [uuidv4()], the profile manager and the
    clock. *)
Fixpoint bulkCreateTasks (requests : list (TaskData * string * list Profile * Z))
         (st : Scheduler) : Scheduler * list Task :=
  match requests with
  | [] => (st, [])
  | (taskData, uuid, profiles, now) :: rest =>
      match createTask taskData uuid profiles now st with
      | (st1, Ok task) =>
          let (st2, createdTasks) := bulkCreateTasks rest st1 in
          (st2, task :: createdTasks)
      | (st1, Err _) => bulkCreateTasks rest st1
      end
  end.

(** *** Runs of the scheduler *)

(** The public operations and the timers, each as one step; and the three
    store writes of an execution as steps of their own, since other
    operations run between the awaits of [processTask]. *)
Inductive Op : Type :=
| OpCreate (taskData : TaskData) (uuid : string) (profiles : list Profile) (now : Z)
| OpCancel (taskId : string)
| OpRetry (taskId : string) (now : Z)
| OpProcess (job : Job) (run : Execution) (clock : Clock)
| OpMarkRunning (taskId : string) (now : Z)
| OpMarkFailed (taskId : string) (message : string) (now : Z)
| OpStoreResult (taskId : string) (r : TaskResult) (now : Z)
| OpLoadPending (now : Z)
| OpScan (now : Z).

Definition step (st : Scheduler) (op : Op) : Scheduler :=
  match op with
  | OpCreate taskData uuid profiles now => fst (createTask taskData uuid profiles now st)
  | OpCancel taskId => cancelTask taskId st
  | OpRetry taskId now => fst (retryTask taskId now st)
  | OpProcess job run clock => fst (processTask job run clock st)
  | OpMarkRunning taskId now => updateTaskStatus taskId RUNNING None now st
  | OpMarkFailed taskId message now => updateTaskStatus taskId FAILED (Some message) now st
  | OpStoreResult taskId r now => updateTaskResult taskId r now st
  | OpLoadPending now => loadPendingTasks now st
  | OpScan now => scheduledTaskProcessor now st
  end.

Definition run (ops : list Op) (st : Scheduler) : Scheduler :=
  fold_left step ops st.

End Model.

(** A goal of a target visit, as [checkGoals] reads it. *)
Record Goal : Type := mkGoal {
  goalType : string;
  goalValue : string;
  goalRequired : bool
}.

(** [s.includes(sub)]. *)
Fixpoint includes (s sub : string) : bool :=
  String.prefix sub s ||
  match s with
  | EmptyString => false
  | String _ s' => includes s' sub
  end.

(** [checkGoals(page, goals)], on the answer [url] of [page.url()]. *)
Definition checkGoals (url : string) (goals : list Goal) : list Goal :=
  filter (fun goal =>
            let success :=
              if String.eqb (goalType goal) "pageview" then includes url (goalValue goal)
              else if String.eqb (goalType goal) "duration" then true
              else if String.eqb (goalType goal) "depth" then true
              else false in
            success || negb (goalRequired goal)) goals.

End TaskScheduler.

(* ================================================================== *)
(** ** Concrete collaborators and scenarios *)
(* ================================================================== *)

Module Scenario.

Import BrowserPool.

(** An engine that always launches and always answers the probe; the
    n-th uuid is the n-th lowercase letter. *)
Definition uuids (n : nat) : string := String (ascii_of_nat (97 + n)) EmptyString.
Definition launches (n : nat) : option Browser := Some n.
Definition probes (_ : Z) (_ : Browser) : bool := true.

Definition acquire (maxBrowsers : nat) := acquireBrowser maxBrowsers uuids launches.
Definition release (maxBrowsers : nat) := releaseBrowser maxBrowsers uuids launches.
Definition init (maxBrowsers : nat) := initialize maxBrowsers uuids launches.
Definition tick (maxBrowsers : nat) := maintenance maxBrowsers uuids launches probes.

(** [n] callers in turn, at times 1..n. *)
Fixpoint acquireMany (maxBrowsers n : nat) (st : Pool) : Pool * list Acquired :=
  match n with
  | O => (st, [])
  | S n' =>
      let (st1, rs) := acquireMany maxBrowsers n' st in
      let (st2, r) := acquire maxBrowsers "worker"%string (Z.of_nat n) st1 in
      (st2, rs ++ [r])
  end.

(** [n] lease-and-return cycles of one caller, all at time [now]. *)
Fixpoint cycles (maxBrowsers n : nat) (now : Z) (st : Pool) : Pool :=
  match n with
  | O => st
  | S n' =>
      let st1 := cycles maxBrowsers n' now st in
      match acquire maxBrowsers "worker"%string now st1 with
      | (st2, Leased b) => fst (release maxBrowsers b now st2)
      | (st2, _) => st2
      end
  end.

End Scenario.

Module SchedulerScenario.

Import TaskScheduler.

(** A configuration payload that every schema accepts as it is. *)
Definition Config : Type := unit.
Definition accept (_ : Schema) (c : Config) : result string Config := Ok c.
Definition reject (_ : Schema) (_ : Config) : result string Config :=
  Err "query is required"%string.
Definition noRegion (_ : Config) : option string := None.
Definition jobIds (n : nat) : string := String (ascii_of_nat (49 + n)) EmptyString.
Definition half (_ : nat) : Q := 1 # 2.

Definition warmupNow : TaskData Config := mkTaskData WARMUP tt None None None.
Definition searchNow : TaskData Config := mkTaskData SEARCH tt None None None.
Definition warmupAt (t : Z) : TaskData Config :=
  mkTaskData WARMUP tt None None (Some (scheduled t)).
Definition warmupWithin (a b : Z) : TaskData Config :=
  mkTaskData WARMUP tt None None (Some (distributed a b)).

Definition create := @createTask Config accept noRegion 3 jobIds half.
Definition createStrict := @createTask Config reject noRegion 3 jobIds half.
Definition cancel := @cancelTask Config.
Definition retry := @retryTask Config 3 jobIds half.
Definition process := @processTask Config 3.
Definition runOps := @run Config accept noRegion 3 jobIds half.

Definition done : TaskResult := mkResult true None 9.

(** An execution entered at time 10 that takes 9 ms. *)
Definition at10 : Clock := mkClock 10 10 19 19 20.

(** The job [j] as a worker sees it at attempt [n + 1]. *)
Definition attempt (n : nat) (j : Job Config) : Job Config :=
  mkJob (jobId j) (data j) (opts j) n.

Definition statusOf (taskId : string) (st : Scheduler Config) : option TaskStatus :=
  option_map (@status Config) (findOne taskId st).

(** One immediate warm-up Job submitted at time 0, and the job the queue
    then holds for it. *)
Definition submitted : Scheduler Config :=
  fst (create warmupNow "u1"%string [] 0 (init Config)).

Definition theJob : Job Config :=
  mkJob "1"%string (newTask warmupNow tt "u1"%string 0) (mkOptions 5 3 None None) 0.

(** The store while a worker executes [theJob]; after its executor
    returned; after its last attempt threw. *)
Definition whileRunning : Scheduler Config :=
  updateTaskStatus "task-u1"%string RUNNING None 10 submitted.
Definition afterSuccess : Scheduler Config :=
  fst (process theJob (Returned done) at10 submitted).
Definition afterLastFailure : Scheduler Config :=
  fst (process (attempt 2 theJob) (Threw "net::ERR_TIMED_OUT"%string) at10 submitted).

(** An answer of [Math.random()] one step of [2 ^ -52] below 1. *)
Definition almostOne (_ : nat) : Q := 4503599627370495 # 4503599627370496.

(** Two healthy profiles, the second the less recently active. *)
Definition profilesTwo : list Profile :=
  [mkProfile "p1" "Moscow" 300; mkProfile "p2" "Moscow" 100].

(** Submissions that set more than the type: a daily search at priority
    8, and a visit on behalf of profile p9 at the falsy priority 0 and at
    a fixed time. *)
Definition searchDaily : TaskData Config :=
  mkTaskData SEARCH tt None (Some 8%Z) (Some (cron "0 9 * * *")).
Definition visitAt (t : Z) : TaskData Config :=
  mkTaskData TARGET_VISIT tt (Some "p9"%string) (Some 0%Z) (Some (scheduled t)).

(** An execution entered at time 1010, ten milliseconds after the time
    the Job was scheduled for. *)
Definition at1010 : Clock := mkClock 1010 1010 1019 1019 1020.

End SchedulerScenario.

(* ================================================================== *)
(** ** Properties of the browser pool *)
(* ================================================================== *)

Unset Implicit Arguments.

Module PoolFacts.

Import BrowserPool Scenario.

(** A run of the code on closed inputs. *)
Ltac evaluate := vm_compute; reflexivity.

Lemma find_untracked (b : Browser) (m : list (string * BrowserWrapper)) :
  (forall i w, In (i, w) m -> browser w <> b) ->
  find (fun e => Nat.eqb (browser (snd e)) b) m = None.
Proof.
  induction m as [| [i w] m IH]; intros Hm; simpl.
  - reflexivity.
  - destruct (Nat.eqb_spec (browser w) b) as [Heq | _].
    + exfalso. apply (Hm i w); [left; reflexivity | exact Heq].
    + apply IH. intros i' w' Hin. apply (Hm i' w'). right. exact Hin.
Qed.

Lemma findWrapperByBrowser_untracked (b : Browser) (st : Pool) :
  (forall i w, In (i, w) (browsers st) -> browser w <> b) ->
  findWrapperByBrowser b st = None.
Proof.
  intros Hm. unfold findWrapperByBrowser. rewrite (find_untracked b _ Hm). reflexivity.
Qed.

(** A browser created on demand by [acquireBrowser] is returned to the
    caller with its id still on [availableBrowsers]. *)
Lemma acquireBrowser_created_stays_available
      (maxBrowsers : nat) (uuidv4 : nat -> string) (launch : nat -> option Browser)
      (p : Profile) (now : Z) (st : Pool) (b : Browser) :
  isShuttingDown st = false ->
  availableBrowsers st = [] ->
  size st < maxBrowsers ->
  launch (created st) = Some b ->
  exists st', acquireBrowser maxBrowsers uuidv4 launch p now st = (st', Leased b)
              /\ availableBrowsers st' = [uuidv4 (created st)].
Proof.
  intros Hup Havail Hsize Hlaunch.
  unfold acquireBrowser, getAvailableBrowser. rewrite Hup, Havail.
  destruct (Nat.ltb_spec (size st) maxBrowsers) as [_ | Hge]; [| lia].
  unfold createBrowser. rewrite Hlaunch. cbn [lease browser id].
  eexists. split; [reflexivity |].
  unfold write_wrapper. cbn [id browsers set_browsers set_available set_created].
  match goal with |- context [match ?m with Some _ => _ | None => _ end] => destruct m end;
    cbn; rewrite Havail; reflexivity.
Qed.

(** C1, evaluated on the code.  The claim asks that a browser returned by
    [acquireBrowser] is off the available list until it is released.
    (1) With [maxBrowsers = 1] and an empty pool, the browser created on
    demand for the first caller is still on [availableBrowsers] when the
    call returns, and the next [acquireBrowser] returns the same browser.
    (2) With [maxBrowsers = 2], two leases out and one waiter,
    [releaseBrowser] resumes the waiter with the released browser and
    leaves its id on [availableBrowsers]; the next [acquireBrowser]
    returns that browser again. *)
Theorem leased_browser_stays_available :
  (exists s1 s2 b,
      acquire 1 "alice"%string 1 empty = (s1, Leased b) /\
      availableBrowsers s1 = [uuids 0] /\
      option_map browser (map_get (uuids 0) (browsers s1)) = Some b /\
      acquire 1 "bob"%string 2 s1 = (s2, Leased b))
  /\
  (exists s1 s2 s3 s4 b,
      init 2 0 empty = (s1, Ok tt) /\
      acquireMany 2 3 s1 = (s2, [Leased 0; Leased 1; Suspended]) /\
      release 2 0 10 s2 = (s3, ReleaseDone (Some ("worker"%string, b))) /\
      availableBrowsers s3 = [uuids 0] /\
      option_map browser (map_get (uuids 0) (browsers s3)) = Some b /\
      acquire 2 "dave"%string 11 s3 = (s4, Leased b)).
Proof.
  split.
  - do 3 eexists. repeat (split; [evaluate |]). evaluate.
  - do 5 eexists. repeat (split; [evaluate |]). evaluate.
Qed.

(** C2, evaluated on the code.  The claim asks that the pool never tracks
    more than [maxBrowsers] browsers.  With [maxBrowsers = 6],
    [initialize] creates 5 browsers; once all 5 are leased a maintenance
    tick sees 0 available and 5 < 6 tracked, and creates min(3, 6) - 0 = 3
    more: 8 browsers for a maximum of 6. *)
Theorem maintenance_exceeds_maxBrowsers :
  exists s1 s2 s3,
    init 6 0 empty = (s1, Ok tt) /\ size s1 = 5 /\
    acquireMany 6 5 s1 = (s2, [Leased 0; Leased 1; Leased 2; Leased 3; Leased 4]) /\
    size s2 = 5 /\ availableBrowsers s2 = [] /\
    tick 6 10 30000 s2 = Some s3 /\
    size s3 = 8 /\ 6 < size s3.
Proof.
  do 3 eexists. repeat (split; [evaluate |]). vm_compute. lia.
Qed.

(** C3, evaluated on the code.  The claim asks that a [releaseBrowser]
    made while a caller waits hands the browser to that caller.  With
    [maxBrowsers = 1], one lease out and one waiter, a release that meets
    the recycling predicate takes the recycling branch: the browser is
    closed, a replacement is put on [availableBrowsers], and the waiter is
    still on [browserQueue], not resumed.  (1) recycling by age, past one
    hour; (2) recycling by the 50th completed task. *)
Theorem recycling_release_skips_waiter :
  (exists s1 s2 s3,
      init 1 0 empty = (s1, Ok tt) /\
      acquireMany 1 2 s1 = (s2, [Leased 0; Suspended]) /\
      browserQueue s2 = ["worker"%string] /\
      release 1 0 3600001 s2 = (s3, ReleaseDone None) /\
      browserQueue s3 = ["worker"%string] /\
      availableBrowsers s3 = [uuids 1] /\
      findWrapperByBrowser 0 s3 = None)
  /\
  (exists s1 s2 s3 s4,
      init 1 0 empty = (s1, Ok tt) /\
      cycles 1 49 5 s1 = s2 /\
      option_map tasksCompleted (findWrapperByBrowser 0 s2) = Some 49 /\
      acquireMany 1 2 s2 = (s3, [Leased 0; Suspended]) /\
      release 1 0 6 s3 = (s4, ReleaseDone None) /\
      browserQueue s4 = ["worker"%string] /\
      availableBrowsers s4 = [uuids 1] /\
      findWrapperByBrowser 0 s4 = None).
Proof.
  split.
  - do 3 eexists. repeat (split; [evaluate |]). evaluate.
  - do 4 eexists. repeat (split; [evaluate |]). evaluate.
Qed.

(** Where the release does not recycle, the head of [browserQueue] is the
    caller that is resumed, with the released browser. *)
Lemma release_resumes_head_waiter
      (maxBrowsers : nat) (uuidv4 : nat -> string) (launch : nat -> option Browser)
      (b : Browser) (now : Z) (st : Pool) (w : BrowserWrapper) (p : Waiter) (q : list Waiter) :
  findWrapperByBrowser b st = Some w ->
  S (tasksCompleted w) < 50 ->
  (now - createdAt w <= 3600000)%Z ->
  browserQueue st = p :: q ->
  exists st', releaseBrowser maxBrowsers uuidv4 launch b now st
              = (st', ReleaseDone (Some (p, browser w)))
              /\ browserQueue st' = q.
Proof.
  intros Hfind Htasks Hage Hq.
  unfold releaseBrowser. rewrite Hfind. cbn [tasksCompleted id browser].
  unfold shouldRecycleBrowser. cbn [tasksCompleted createdAt].
  destruct (Nat.leb_spec 50 (S (tasksCompleted w))) as [Hle | _]; [lia |].
  destruct (Z.ltb_spec 3600000 (now - createdAt w)) as [Hlt | _]; [lia |].
  cbn [orb].
  assert (Hqueue : browserQueue
                     (set_available
                        (availableBrowsers
                           (write_wrapper
                              (mkWrapper (id w) (browser w) None (createdAt w) (lastUsed w)
                                         (S (tasksCompleted w)) false) st) ++ [id w])
                        (write_wrapper
                           (mkWrapper (id w) (browser w) None (createdAt w) (lastUsed w)
                                      (S (tasksCompleted w)) false) st)) = p :: q).
  { unfold write_wrapper. cbn [id].
    destruct (map_get (id w) (browsers st)); cbn; exact Hq. }
  rewrite Hqueue. unfold lease. cbn [id browser].
  eexists. split; [reflexivity |].
  unfold write_wrapper. cbn [id browsers set_queue set_available].
  match goal with |- context [match ?m with Some _ => _ | None => _ end] => destruct m end;
    reflexivity.
Qed.

(** C10.  [releaseBrowser] on a browser that no tracked wrapper holds
    returns normally and leaves the whole pool state as it was: the
    browser map with every wrapper's fields, the available list and the
    wait queue. *)
Theorem release_untracked_is_noop
        (maxBrowsers : nat) (uuidv4 : nat -> string) (launch : nat -> option Browser)
        (b : Browser) (now : Z) (st : Pool) :
  (forall i w, In (i, w) (browsers st) -> browser w <> b) ->
  releaseBrowser maxBrowsers uuidv4 launch b now st = (st, ReleaseDone None).
Proof.
  intros Hm. unfold releaseBrowser.
  rewrite (findWrapperByBrowser_untracked b st Hm). reflexivity.
Qed.

Lemma release_untracked_is_noop_witness :
  let st := fst (acquire 2 "alice"%string 1 (fst (init 2 0 empty))) in
  size st = 2 /\ release 2 7 9 st = (st, ReleaseDone None).
Proof.
  split; [reflexivity |].
  apply (release_untracked_is_noop 2 uuids launches 7 9).
  intros i w Hin. vm_compute in Hin.
  destruct Hin as [H | [H | []]]; inversion H; subst; cbn; discriminate.
Defined.

End PoolFacts.

(* ================================================================== *)
(** ** Rounding *)
(* ================================================================== *)

Module DoubleFacts.

(** [binary64] is monotone and leaves the integers below [2 ^ 53] as
    they are; the bounds on rounded times rest on these two facts.  It
    is a rounding to nearest: the result is within half a unit in the
    last place of the argument. *)

Lemma pow2_pos (e : Z) : (0 < pow2 e)%Q.
Proof. apply Qpower_0_lt. reflexivity. Qed.

Lemma pow2_add (a b : Z) : (pow2 (a + b) == pow2 a * pow2 b)%Q.
Proof. apply Qpower_plus. discriminate. Qed.

Lemma pow2_le (a b : Z) : (a <= b)%Z -> (pow2 a <= pow2 b)%Q.
Proof. intros H. apply Qpower_le_compat_l; [exact H | discriminate]. Qed.

Lemma pow2_lt_inv (a b : Z) : (pow2 a < pow2 b)%Q -> (a < b)%Z.
Proof. intros H. apply (Qpower_lt_compat_l_inv 2); [exact H | reflexivity]. Qed.

Lemma pow2_Z (n : Z) : (0 <= n)%Z -> (pow2 n == inject_Z (2 ^ n))%Q.
Proof. intros H. symmetry. apply (Zpower_Qpower 2 n H). Qed.

Lemma exponent_spec (q : Q) :
  (0 < q)%Q -> (pow2 (exponent q) <= q)%Q /\ (q < pow2 (exponent q + 1))%Q.
Proof.
  intros Hq. destruct q as [n d].
  assert (Hn : (0 < n)%Z) by (unfold Qlt in Hq; cbn in Hq; lia).
  pose proof (Z.log2_spec n Hn) as [Hn1 Hn2].
  pose proof (Z.log2_spec (Zpos d) eq_refl) as [Hd1 Hd2].
  pose proof (Z.log2_nonneg n) as Hln. pose proof (Z.log2_nonneg (Zpos d)) as Hld.
  unfold exponent. cbn [Qnum Qden].
  set (ln := Z.log2 n) in *. set (ld := Z.log2 (Zpos d)) in *.
  assert (HN : ((n # d) * inject_Z (Zpos d) == inject_Z n)%Q).
  { unfold Qeq, Qmult, inject_Z. cbn. lia. }
  assert (Hup : ((n # d) < pow2 (ln - ld + 1))%Q).
  { apply Qnot_le_lt. intros Hle.
    assert (HP : (pow2 (ln - ld + 1) * inject_Z (2 ^ ld) == inject_Z (2 ^ (ln + 1)))%Q).
    { rewrite <- !pow2_Z by lia. rewrite <- pow2_add. replace (ln - ld + 1 + ld)%Z with (ln + 1)%Z by lia. reflexivity. }
    assert (H1 : (inject_Z (2 ^ ld) <= inject_Z (Zpos d))%Q) by (rewrite <- Zle_Qle; exact Hd1).
    assert (H2 : (inject_Z n < inject_Z (2 ^ (ln + 1)))%Q) by (rewrite <- Zlt_Qlt; exact Hn2).
    assert (H3 : (0 < inject_Z (2 ^ ld))%Q) by (rewrite <- (Zlt_Qlt 0); lia).
    assert (H4 : (pow2 (ln - ld + 1) * inject_Z (2 ^ ld) <= (n # d) * inject_Z (2 ^ ld))%Q).
    { apply Qmult_le_compat_r; [exact Hle | lra]. }
    assert (H5 : ((n # d) * inject_Z (2 ^ ld) <= (n # d) * inject_Z (Zpos d))%Q).
    { rewrite !(Qmult_comm (n # d)). apply Qmult_le_compat_r; [exact H1 | lra]. }
    lra. }
  assert (Hlow : (pow2 (ln - ld - 1) <= (n # d))%Q).
  { apply Qnot_lt_le. intros Hlt.
    assert (HP : (pow2 (ln - ld - 1) * inject_Z (2 ^ (ld + 1)) == inject_Z (2 ^ ln))%Q).
    { rewrite <- !pow2_Z by lia. rewrite <- pow2_add. replace (ln - ld - 1 + (ld + 1))%Z with ln by lia. reflexivity. }
    assert (H1 : (inject_Z (Zpos d) <= inject_Z (2 ^ (ld + 1)))%Q) by (rewrite <- Zle_Qle; lia).
    assert (H2 : (inject_Z (2 ^ ln) <= inject_Z n)%Q) by (rewrite <- Zle_Qle; exact Hn1).
    assert (H3 : (0 < inject_Z (Zpos d))%Q) by (rewrite <- (Zlt_Qlt 0); lia).
    assert (H4 : ((n # d) * inject_Z (2 ^ (ld + 1)) < pow2 (ln - ld - 1) * inject_Z (2 ^ (ld + 1)))%Q).
    { apply Qmult_lt_compat_r; [lra | exact Hlt]. }
    assert (H5 : ((n # d) * inject_Z (Zpos d) <= (n # d) * inject_Z (2 ^ (ld + 1)))%Q).
    { rewrite !(Qmult_comm (n # d)). apply Qmult_le_compat_r; [exact H1 | lra]. }
    lra. }
  destruct (Qle_bool (pow2 (ln - ld)) (n # d)) eqn:Hb.
  - apply Qle_bool_iff in Hb. split; [exact Hb | exact Hup].
  - split; [exact Hlow |].
    replace (ln - ld - 1 + 1)%Z with (ln - ld)%Z by lia.
    apply Qnot_le_lt. intros Hle. apply Qle_bool_iff in Hle. congruence.
Qed.

Ltac compared H :=
  first [apply Qeq_alt in H | apply Qlt_alt in H | apply Qgt_alt in H].

Lemma roundHalfEven_bounds (x : Q) :
  (Qfloor x <= roundHalfEven x <= Qfloor x + 1)%Z.
Proof.
  unfold roundHalfEven.
  destruct (Qcompare (x - inject_Z (Qfloor x)) (1 # 2)); [destruct (Z.even (Qfloor x)) | |]; lia.
Qed.

Lemma roundHalfEven_Z (z : Z) : roundHalfEven (inject_Z z) = z.
Proof.
  unfold roundHalfEven. rewrite Qfloor_Z.
  destruct (Qcompare (inject_Z z - inject_Z z) (1 # 2)) eqn:Hc.
  - apply Qeq_alt in Hc. exfalso. lra.
  - reflexivity.
  - apply Qgt_alt in Hc. exfalso. lra.
Qed.

Lemma roundHalfEven_le (x y : Q) : (x <= y)%Q -> (roundHalfEven x <= roundHalfEven y)%Z.
Proof.
  intros Hxy.
  pose proof (Qfloor_resp_le x y Hxy) as Hf.
  pose proof (roundHalfEven_bounds x) as Hx. pose proof (roundHalfEven_bounds y) as Hy.
  destruct (Z.eq_dec (Qfloor x) (Qfloor y)) as [Heq | Hne]; [| lia].
  unfold roundHalfEven. rewrite <- Heq.
  destruct (Qcompare (x - inject_Z (Qfloor x)) (1 # 2)) eqn:Hcx;
    destruct (Qcompare (y - inject_Z (Qfloor x)) (1 # 2)) eqn:Hcy;
    try (destruct (Z.even (Qfloor x))); try lia; exfalso;
    compared Hcx; compared Hcy; lra.
Qed.

Lemma roundPositive_bounds (q : Q) :
  (0 < q)%Q ->
  (pow2 (exponent q) <= roundPositive q)%Q /\ (roundPositive q <= pow2 (exponent q + 1))%Q.
Proof.
  intros Hq. destruct (exponent_spec q Hq) as [Hlo Hhi].
  unfold roundPositive. set (k := exponent q) in *. set (e := (k - 52)%Z).
  pose proof (pow2_pos e) as He.
  assert (H52 : (pow2 k == inject_Z (2 ^ 52) * pow2 e)%Q).
  { rewrite <- (pow2_Z 52) by lia. rewrite <- pow2_add. unfold e.
    replace (52 + (k - 52))%Z with k by lia. reflexivity. }
  assert (H53 : (pow2 (k + 1) == inject_Z (2 ^ 53) * pow2 e)%Q).
  { rewrite <- (pow2_Z 53) by lia. rewrite <- pow2_add. unfold e.
    replace (53 + (k - 52))%Z with (k + 1)%Z by lia. reflexivity. }
  assert (Hs1 : (inject_Z (2 ^ 52) <= q / pow2 e)%Q).
  { apply Qle_shift_div_l; [exact He |]. rewrite <- H52. exact Hlo. }
  assert (Hs2 : (q / pow2 e <= inject_Z (2 ^ 53))%Q).
  { apply Qle_shift_div_r; [exact He |]. rewrite <- H53. apply Qlt_le_weak. exact Hhi. }
  apply roundHalfEven_le in Hs1. apply roundHalfEven_le in Hs2.
  rewrite roundHalfEven_Z in Hs1, Hs2.
  rewrite H52, H53. split; (apply Qmult_le_compat_r; [rewrite <- Zle_Qle; assumption | lra]).
Qed.

Lemma roundPositive_le (x y : Q) :
  (0 < x)%Q -> (x <= y)%Q -> (roundPositive x <= roundPositive y)%Q.
Proof.
  intros Hx Hxy. assert (Hy : (0 < y)%Q) by lra.
  destruct (exponent_spec x Hx) as [Hxlo Hxhi].
  destruct (exponent_spec y Hy) as [Hylo Hyhi].
  assert (Hk : (exponent x < exponent y + 1)%Z) by (apply pow2_lt_inv; lra).
  destruct (Z.eq_dec (exponent x) (exponent y)) as [Heq | Hne].
  - unfold roundPositive. rewrite Heq.
    pose proof (pow2_pos (exponent y - 52)) as He.
    apply Qmult_le_compat_r; [| lra]. rewrite <- Zle_Qle. apply roundHalfEven_le.
    apply Qmult_le_compat_r; [exact Hxy |]. apply Qlt_le_weak. apply Qinv_lt_0_compat. exact He.
  - destruct (roundPositive_bounds x Hx) as [_ Hxr].
    destruct (roundPositive_bounds y Hy) as [Hyr _].
    assert (Hp : (pow2 (exponent x + 1) <= pow2 (exponent y))%Q) by (apply pow2_le; lia).
    lra.
Qed.

Lemma roundPositive_pos (q : Q) : (0 < q)%Q -> (0 < roundPositive q)%Q.
Proof.
  intros Hq. destruct (roundPositive_bounds q Hq) as [Hlo _].
  pose proof (pow2_pos (exponent q)). lra.
Qed.

Lemma binary64_le (x y : Q) : (x <= y)%Q -> (binary64 x <= binary64 y)%Q.
Proof.
  intros Hxy. unfold binary64.
  destruct (Qcompare x 0) eqn:Hx; destruct (Qcompare y 0) eqn:Hy;
    compared Hx; compared Hy; try lra.
  - pose proof (roundPositive_pos y Hy). lra.
  - assert (H : (0 < - x)%Q) by lra. pose proof (roundPositive_pos (- x) H). lra.
  - assert (Hy' : (0 < - y)%Q) by lra.
    assert (H : (- y <= - x)%Q) by lra.
    pose proof (roundPositive_le (- y) (- x) Hy' H). lra.
  - assert (H : (0 < - x)%Q) by lra. pose proof (roundPositive_pos (- x) H).
    pose proof (roundPositive_pos y Hy). lra.
  - apply roundPositive_le; assumption.
Qed.

Lemma roundPositive_Z (z : Z) :
  (0 < z < 2 ^ 53)%Z -> (roundPositive (inject_Z z) == inject_Z z)%Q.
Proof.
  intros [Hz0 Hz1].
  assert (Hq : (0 < inject_Z z)%Q) by (rewrite <- (Zlt_Qlt 0); exact Hz0).
  destruct (exponent_spec (inject_Z z) Hq) as [Hlo Hhi].
  unfold roundPositive. set (k := exponent (inject_Z z)) in *.
  assert (Hk : (k < 53)%Z).
  { apply pow2_lt_inv. rewrite (pow2_Z 53) by lia.
    assert (inject_Z z < inject_Z (2 ^ 53))%Q by (rewrite <- Zlt_Qlt; exact Hz1). lra. }
  assert (Hscaled : (inject_Z z / pow2 (k - 52) == inject_Z (z * 2 ^ (52 - k)))%Q).
  { rewrite inject_Z_mult, <- (pow2_Z (52 - k)) by lia.
    unfold Qdiv. apply Qmult_comp; [reflexivity |].
    replace (52 - k)%Z with (- (k - 52))%Z by lia. unfold pow2. rewrite Qpower_opp. reflexivity. }
  assert (Hround : roundHalfEven (inject_Z z / pow2 (k - 52)) = (z * 2 ^ (52 - k))%Z).
  { assert (H1 : (roundHalfEven (inject_Z z / pow2 (k - 52))
                  <= roundHalfEven (inject_Z (z * 2 ^ (52 - k))))%Z)
      by (apply roundHalfEven_le; rewrite Hscaled; apply Qle_refl).
    assert (H2 : (roundHalfEven (inject_Z (z * 2 ^ (52 - k)))
                  <= roundHalfEven (inject_Z z / pow2 (k - 52)))%Z)
      by (apply roundHalfEven_le; rewrite Hscaled; apply Qle_refl).
    rewrite roundHalfEven_Z in H1, H2. lia. }
  rewrite Hround, inject_Z_mult, <- (pow2_Z (52 - k)) by lia.
  rewrite <- Qmult_assoc, <- pow2_add.
  replace (52 - k + (k - 52))%Z with 0%Z by lia. unfold pow2. cbn. ring.
Qed.

Lemma binary64_Z (z : Z) :
  (Z.abs z < 2 ^ 53)%Z -> (binary64 (inject_Z z) == inject_Z z)%Q.
Proof.
  intros Hz. unfold binary64.
  destruct (Qcompare (inject_Z z) 0) eqn:Hc; compared Hc.
  - symmetry. exact Hc.
  - change (inject_Z z < inject_Z 0)%Q in Hc. rewrite <- Zlt_Qlt in Hc.
    assert (H : (- inject_Z z == inject_Z (- z))%Q) by (rewrite inject_Z_opp; reflexivity).
    assert (Hr : (roundPositive (- inject_Z z) == inject_Z (- z))%Q).
    { assert (H0 : (0 < inject_Z (- z))%Q) by (rewrite <- (Zlt_Qlt 0); lia).
      assert (H1 : (roundPositive (- inject_Z z) <= roundPositive (inject_Z (- z)))%Q)
        by (apply roundPositive_le; lra).
      assert (H2 : (roundPositive (inject_Z (- z)) <= roundPositive (- inject_Z z))%Q)
        by (apply roundPositive_le; lra).
      rewrite (roundPositive_Z (- z)) in H1, H2 by lia. lra. }
    rewrite Hr, inject_Z_opp. ring.
  - change (inject_Z 0 < inject_Z z)%Q in Hc. rewrite <- Zlt_Qlt in Hc.
    apply roundPositive_Z. lia.
Qed.

(** [roundHalfEven] is a nearest integer, and the even one of two. *)
Lemma roundHalfEven_nearest (x : Q) :
  (x - (1 # 2) <= inject_Z (roundHalfEven x))%Q
  /\ (inject_Z (roundHalfEven x) <= x + (1 # 2))%Q
  /\ ((inject_Z (roundHalfEven x) == x + (1 # 2))%Q \/ (inject_Z (roundHalfEven x) == x - (1 # 2))%Q ->
      Z.even (roundHalfEven x) = true).
Proof.
  pose proof (Qfloor_le x) as Hlo. pose proof (Qlt_floor x) as Hhi.
  rewrite inject_Z_plus in Hhi. change (inject_Z 1) with 1%Q in Hhi.
  unfold roundHalfEven.
  destruct (Qcompare (x - inject_Z (Qfloor x)) (1 # 2)) eqn:Hc; compared Hc.
  - destruct (Z.even (Qfloor x)) eqn:He.
    + split; [lra |]. split; [lra |]. intros _. exact He.
    + rewrite inject_Z_plus. change (inject_Z 1) with 1%Q.
      split; [lra |]. split; [lra |]. intros _.
      rewrite Z.even_add, He. reflexivity.
  - split; [lra |]. split; [lra |]. intros [H | H]; exfalso; lra.
  - rewrite inject_Z_plus. change (inject_Z 1) with 1%Q.
    split; [lra |]. split; [lra |]. intros [H | H]; exfalso; lra.
Qed.

(** [roundPositive] is within half a unit in the last place. *)
Lemma roundPositive_nearest (q : Q) :
  (0 < q)%Q ->
  (q - pow2 (exponent q - 53) <= roundPositive q)%Q
  /\ (roundPositive q <= q + pow2 (exponent q - 53))%Q.
Proof.
  intros Hq. unfold roundPositive.
  set (e := (exponent q - 52)%Z).
  pose proof (pow2_pos e) as He.
  destruct (roundHalfEven_nearest (q / pow2 e)) as [Hlo [Hhi _]].
  assert (Hq' : (q / pow2 e * pow2 e == q)%Q) by (field; lra).
  assert (Hhalf : ((1 # 2) * pow2 e == pow2 (exponent q - 53))%Q).
  { replace (exponent q - 53)%Z with (-1 + e)%Z by (unfold e; lia).
    rewrite pow2_add. reflexivity. }
  assert (H1 : ((q / pow2 e - (1 # 2)) * pow2 e
                <= inject_Z (roundHalfEven (q / pow2 e)) * pow2 e)%Q)
    by (apply Qmult_le_compat_r; lra).
  assert (H2 : (inject_Z (roundHalfEven (q / pow2 e)) * pow2 e
                <= (q / pow2 e + (1 # 2)) * pow2 e)%Q)
    by (apply Qmult_le_compat_r; lra).
  rewrite <- Hhalf.
  revert H1 H2 Hq'. generalize (inject_Z (roundHalfEven (q / pow2 e)) * pow2 e)%Q.
  generalize (q / pow2 e)%Q. intros s r H1 H2 Hq'. 
  assert (E1 : ((s - (1 # 2)) * pow2 e == s * pow2 e - (1 # 2) * pow2 e)%Q) by ring.
  assert (E2 : ((s + (1 # 2)) * pow2 e == s * pow2 e + (1 # 2) * pow2 e)%Q) by ring.
  rewrite E1 in H1. rewrite E2 in H2. rewrite Hq' in H1, H2. split; assumption.
Qed.

Lemma binary64_eq (x y : Q) : (x == y)%Q -> (binary64 x == binary64 y)%Q.
Proof.
  intros Hxy. apply Qle_antisym; apply binary64_le; rewrite Hxy; apply Qle_refl.
Qed.

Lemma binary64_0 : (binary64 0 == 0)%Q.
Proof. reflexivity. Qed.

(** The difference of two integers, when its magnitude is below [2 ^ 53]. *)
Lemma binary64_minus (a b : Z) :
  (Z.abs (a - b) < 2 ^ 53)%Z ->
  (binary64 (inject_Z a - inject_Z b) == inject_Z a - inject_Z b)%Q.
Proof.
  intros H.
  assert (He : (inject_Z a - inject_Z b == inject_Z (a - b))%Q)
    by (unfold Z.sub; rewrite inject_Z_plus, inject_Z_opp; reflexivity).
  rewrite (binary64_eq _ _ He), (binary64_Z _ H). symmetry. exact He.
Qed.

(** Rounding keeps a value between two integers it lies between. *)
Lemma binary64_between (a b : Z) (x : Q) :
  (Z.abs a < 2 ^ 53)%Z -> (Z.abs b < 2 ^ 53)%Z ->
  (inject_Z a <= x)%Q -> (x <= inject_Z b)%Q ->
  (inject_Z a <= binary64 x)%Q /\ (binary64 x <= inject_Z b)%Q.
Proof.
  intros Ha Hb Hax Hxb.
  apply binary64_le in Hax. apply binary64_le in Hxb.
  rewrite (binary64_Z a Ha) in Hax. rewrite (binary64_Z b Hb) in Hxb.
  split; assumption.
Qed.

End DoubleFacts.

(* ================================================================== *)
(** ** Properties of the task scheduler *)
(* ================================================================== *)

Module SchedulerFacts.

Import TaskScheduler.

(** A run of the code on closed inputs. *)
Ltac evaluate := vm_compute; reflexivity.

Section Facts.

Variable Config : Type.
Variable joiValidate : Schema -> Config -> result string Config.
Variable searchRegion : Config -> option string.
Variable TASK_RETRY_ATTEMPTS : nat.
Variable jobIdOf : nat -> string.
Variable random : nat -> Q.

Local Abbreviation Task := (TaskScheduler.Task Config).
Local Abbreviation Scheduler := (TaskScheduler.Scheduler Config).
Local Abbreviation Op := (TaskScheduler.Op Config).
Local Abbreviation scheduleTask := (@TaskScheduler.scheduleTask Config TASK_RETRY_ATTEMPTS jobIdOf random).
Local Abbreviation validateTaskConfig := (@TaskScheduler.validateTaskConfig Config joiValidate).
Local Abbreviation selectBestProfile := (@TaskScheduler.selectBestProfile Config searchRegion).
Local Abbreviation createTask :=
  (@TaskScheduler.createTask Config joiValidate searchRegion TASK_RETRY_ATTEMPTS jobIdOf random).
Local Abbreviation retryTask := (@TaskScheduler.retryTask Config TASK_RETRY_ATTEMPTS jobIdOf random).
Local Abbreviation processTask := (@TaskScheduler.processTask Config TASK_RETRY_ATTEMPTS).
Local Abbreviation step :=
  (@TaskScheduler.step Config joiValidate searchRegion TASK_RETRY_ATTEMPTS jobIdOf random).
Local Abbreviation run :=
  (@TaskScheduler.run Config joiValidate searchRegion TASK_RETRY_ATTEMPTS jobIdOf random).

(** *** Admission touches the queue only *)

Lemma scheduleTask_tasks (task : Task) (now : Z) (st : Scheduler) :
  tasks (scheduleTask task now st) = tasks st.
Proof.
  unfold TaskScheduler.scheduleTask. destruct (schedule task); reflexivity.
Qed.

Lemma scheduleTask_queue (task : Task) (now : Z) (st : Scheduler) :
  exists job,
    queue (scheduleTask task now st) = queue st ++ [job]
    /\ data job = task
    /\ jobId job = jobIdOf (added st)
    /\ optPriority (opts job) = priority task
    /\ optAttempts (opts job) = TASK_RETRY_ATTEMPTS.
Proof.
  unfold TaskScheduler.scheduleTask.
  destruct (schedule task); eexists; cbn; repeat split; reflexivity.
Qed.

Lemma scheduleTask_only_queue (task : Task) (now : Z) (st st' : Scheduler) :
  queue st = queue st' -> added st = added st' -> draws st = draws st' ->
  queue (scheduleTask task now st) = queue (scheduleTask task now st').
Proof.
  intros Hq Ha Hd. unfold TaskScheduler.scheduleTask.
  destruct (schedule task); cbn; rewrite Hq, Ha, ?Hd; reflexivity.
Qed.

Lemma scheduleTasks_tasks (l : list Task) (now : Z) (st : Scheduler) :
  tasks (fold_left (fun s t => scheduleTask t now s) l st) = tasks st.
Proof.
  revert st. induction l as [| t l IH]; intros st; cbn.
  - reflexivity.
  - rewrite IH. apply scheduleTask_tasks.
Qed.

(** *** [updateOne] *)

Lemma update_first_Forall (P : Task -> Prop) (taskId : string) (f : Task -> Task)
      (l : list Task) :
  (forall t, P t -> P (f t)) -> Forall P l -> Forall P (update_first taskId f l).
Proof.
  intros Hf Hl. induction Hl as [| t l Ht Hl IH]; cbn.
  - constructor.
  - destruct (String.eqb (id t) taskId); constructor; auto.
Qed.

Lemma find_update_first (taskId : string) (f : Task -> Task) (l : list Task) :
  (forall t, id (f t) = id t) ->
  find (fun t => String.eqb (id t) taskId) (update_first taskId f l)
  = option_map f (find (fun t => String.eqb (id t) taskId) l).
Proof.
  intros Hid. induction l as [| t l IH]; cbn.
  - reflexivity.
  - destruct (String.eqb (id t) taskId) eqn:Heq; cbn.
    + rewrite Hid, Heq. reflexivity.
    + rewrite Heq. exact IH.
Qed.

Lemma findOne_updateOne (taskId : string) (f : Task -> Task) (st : Scheduler) :
  (forall t, id (f t) = id t) ->
  findOne taskId (updateOne taskId f st) = option_map f (findOne taskId st).
Proof.
  intros Hid. unfold findOne, updateOne. cbn [tasks]. apply find_update_first. exact Hid.
Qed.

(** *** The statuses the scheduler stores *)

Lemma createTask_tasks (P : Task -> Prop) (taskData : TaskData Config) (uuid : string)
      (profiles : list Profile) (now : Z) (st : Scheduler) :
  (forall t, status t = PENDING -> P t) ->
  Forall P (tasks st) ->
  Forall P (tasks (fst (createTask taskData uuid profiles now st))).
Proof.
  intros HP Hst. unfold TaskScheduler.createTask.
  destruct (validateTaskConfig (dType taskData) (dConfig taskData)) as [cfg | e];
    [| exact Hst].
  destruct (needsProfile (newTask taskData cfg uuid now)).
  - destruct (selectBestProfile (newTask taskData cfg uuid now) profiles) as [p |];
      [| exact Hst].
    cbn [fst]. rewrite scheduleTask_tasks. cbn [tasks insertOne].
    apply Forall_app. split; [exact Hst |]. constructor; [| constructor].
    apply HP. reflexivity.
  - cbn [fst]. rewrite scheduleTask_tasks. cbn [tasks insertOne].
    apply Forall_app. split; [exact Hst |]. constructor; [| constructor].
    apply HP. reflexivity.
Qed.

Lemma step_keeps_unscheduled (st : Scheduler) (op : Op) :
  Forall (fun t => status t <> SCHEDULED) (tasks st) ->
  Forall (fun t => status t <> SCHEDULED) (tasks (step st op)).
Proof.
  intros Hst. destruct op as [taskData uuid profiles now | taskId | taskId now
                             | job r clock | taskId now | taskId message now
                             | taskId r now | now | now]; cbn [TaskScheduler.step].
  - apply createTask_tasks; [| exact Hst]. intros t Ht. rewrite Ht. discriminate.
  - unfold cancelTask.
    destruct (getJob taskId (updateOne taskId (set_status CANCELLED) st));
      cbn [tasks remove updateOne];
      (apply update_first_Forall; [intros t _; cbn; discriminate | exact Hst]).
  - unfold TaskScheduler.retryTask.
    destruct (findOne taskId st) as [found |]; [| exact Hst].
    destruct (negb (status_eqb (status found) FAILED)); [exact Hst |].
    cbn [fst]. rewrite scheduleTask_tasks. cbn [tasks updateOne].
    apply update_first_Forall; [intros t _; cbn; discriminate | exact Hst].
  - unfold TaskScheduler.processTask, updateTaskResult, updateTaskStatus.
    destruct r as [r | message | r message].
    + cbn [fst tasks updateOne].
      apply update_first_Forall; [intros t _; cbn; destruct (success r); discriminate |].
      apply update_first_Forall; [intros t _; cbn; discriminate | exact Hst].
    + cbn [fst].
      destruct (Z.of_nat (attemptsMade job) >=? Z.of_nat TASK_RETRY_ATTEMPTS - 1)%Z;
        cbn [tasks updateOne].
      * apply update_first_Forall; [intros t _; cbn; discriminate |].
        apply update_first_Forall; [intros t _; cbn; discriminate | exact Hst].
      * apply update_first_Forall; [intros t _; cbn; discriminate | exact Hst].
    + cbn [fst].
      destruct (Z.of_nat (attemptsMade job) >=? Z.of_nat TASK_RETRY_ATTEMPTS - 1)%Z;
        cbn [tasks updateOne].
      * apply update_first_Forall; [intros t _; cbn; discriminate |].
        apply update_first_Forall; [intros t _; cbn; destruct (success r); discriminate |].
        apply update_first_Forall; [intros t _; cbn; discriminate | exact Hst].
      * apply update_first_Forall; [intros t _; cbn; destruct (success r); discriminate |].
        apply update_first_Forall; [intros t _; cbn; discriminate | exact Hst].
  - unfold updateTaskStatus. cbn [tasks updateOne].
    apply update_first_Forall; [intros t _; cbn; discriminate | exact Hst].
  - unfold updateTaskStatus. cbn [tasks updateOne].
    apply update_first_Forall; [intros t _; cbn; discriminate | exact Hst].
  - unfold updateTaskResult. cbn [tasks updateOne].
    apply update_first_Forall;
      [intros t _; cbn; destruct (success r); discriminate | exact Hst].
  - unfold loadPendingTasks. rewrite scheduleTasks_tasks. exact Hst.
  - unfold scheduledTaskProcessor. rewrite scheduleTasks_tasks. exact Hst.
Qed.

Lemma run_keeps_unscheduled (ops : list Op) (st : Scheduler) :
  Forall (fun t => status t <> SCHEDULED) (tasks st) ->
  Forall (fun t => status t <> SCHEDULED) (tasks (run ops st)).
Proof.
  revert st. induction ops as [| op ops IH]; intros st Hst; cbn.
  - exact Hst.
  - apply IH. apply step_keeps_unscheduled. exact Hst.
Qed.

Lemma unscheduled_not_due (now : Z) (st : Scheduler) :
  Forall (fun t => status t <> SCHEDULED) (tasks st) ->
  dueScheduledTasks now st = [].
Proof.
  unfold dueScheduledTasks. intros Hst.
  induction Hst as [| t l Ht Hl IH]; cbn.
  - reflexivity.
  - destruct (status t); try exact IH. contradiction Ht. reflexivity.
Qed.

(** C9.  Starting from the empty store, after any sequence of scheduler
    operations (submit, cancel, retry, an execution or any of its status
    writes alone, the startup load and the periodic scan) every stored Job
    has its status among PENDING, RUNNING, COMPLETED, FAILED and
    CANCELLED: SCHEDULED is never written.  So the query of the periodic
    re-admission scan (status SCHEDULED with a due scheduledFor)
    matches no Job, and a tick of the scan leaves the state as it is. *)
Theorem scheduled_status_never_stored (ops : list Op) :
  Forall (fun t => In (status t) [PENDING; RUNNING; COMPLETED; FAILED; CANCELLED])
         (tasks (run ops (init Config)))
  /\ (forall now, dueScheduledTasks now (run ops (init Config)) = [])
  /\ (forall now, scheduledTaskProcessor TASK_RETRY_ATTEMPTS jobIdOf random now
                    (run ops (init Config)) = run ops (init Config)).
Proof.
  assert (Hrun : Forall (fun t : Task => status t <> SCHEDULED)
                        (tasks (run ops (init Config)))).
  { apply run_keeps_unscheduled. constructor. }
  split; [| split].
  - eapply Forall_impl; [| exact Hrun].
    intros t Ht. cbn in Ht. cbn.
  destruct (status t); try (exfalso; apply Ht; reflexivity); auto 6.
  - intros now. apply unscheduled_not_due. exact Hrun.
  - intros now. unfold scheduledTaskProcessor.
    rewrite (unscheduled_not_due now _ Hrun). reflexivity.
Qed.

(** *** Admission delays *)

(** The fixed-delay branch of [scheduleTask] passes [scheduledFor - now]
    to the queue as it is. *)
Lemma scheduled_delay (task : Task) (now : Z) (st : Scheduler) (scheduledFor : Z) :
  schedule task = scheduled scheduledFor ->
  exists job,
    queue (scheduleTask task now st) = queue st ++ [job]
    /\ data job = task
    /\ delay (opts job) = Some (inject_Z (scheduledFor - now)).
Proof.
  intros Hs. unfold TaskScheduler.scheduleTask. rewrite Hs.
  eexists. cbn. repeat split; reflexivity.
Qed.

(** The time the distributed branch draws: each operation rounded, the
    result between the two ends of the window, both included. *)
Lemma distributed_sample (u : Q) (windowStart windowEnd : Z) :
  (0 <= u)%Q -> (u < 1)%Q -> (windowStart <= windowEnd)%Z ->
  (Z.abs windowStart < 2 ^ 52)%Z -> (Z.abs windowEnd < 2 ^ 52)%Z ->
  (inject_Z windowStart
   <= binary64 (inject_Z windowStart
                + binary64 (u * binary64 (inject_Z windowEnd - inject_Z windowStart))))%Q
  /\ (binary64 (inject_Z windowStart
                + binary64 (u * binary64 (inject_Z windowEnd - inject_Z windowStart)))
      <= inject_Z windowEnd)%Q.
Proof.
  intros Hu0 Hu1 Hle Ha Hb.
  assert (Hab : (inject_Z windowStart <= inject_Z windowEnd)%Q)
    by (rewrite <- Zle_Qle; exact Hle).
  assert (Hsize : (binary64 (inject_Z windowEnd - inject_Z windowStart)
                   == inject_Z windowEnd - inject_Z windowStart)%Q)
    by (apply DoubleFacts.binary64_minus; lia).
  assert (Hw : (inject_Z windowEnd - inject_Z windowStart
                == inject_Z (windowEnd - windowStart))%Q)
    by (unfold Z.sub; rewrite inject_Z_plus, inject_Z_opp; reflexivity).
  assert (Hdelay : (inject_Z 0
                    <= binary64 (u * binary64 (inject_Z windowEnd - inject_Z windowStart)))%Q
                   /\ (binary64 (u * binary64 (inject_Z windowEnd - inject_Z windowStart))
                       <= inject_Z (windowEnd - windowStart))%Q).
  { apply DoubleFacts.binary64_between; try lia.
    - change (inject_Z 0) with 0%Q. apply Qmult_le_0_compat; [exact Hu0 |].
      rewrite Hsize. lra.
    - rewrite <- Hw, Hsize.
      assert (H : (u * (inject_Z windowEnd - inject_Z windowStart)
                   <= 1 * (inject_Z windowEnd - inject_Z windowStart))%Q)
        by (apply Qmult_le_compat_r; lra).
      lra. }
  destruct Hdelay as [Hd0 Hd1]. change (inject_Z 0) with 0%Q in Hd0.
  rewrite <- Hw in Hd1.
  revert Hd0 Hd1.
  generalize (binary64 (u * binary64 (inject_Z windowEnd - inject_Z windowStart))).
  intros randomDelay Hd0 Hd1.
  apply DoubleFacts.binary64_between; try lia; lra.
Qed.

(** The delay of a time drawn in the window, before the clamp. *)
Lemma distributed_wait (t : Q) (windowStart windowEnd now : Z) :
  (inject_Z windowStart <= t)%Q -> (t <= inject_Z windowEnd)%Q ->
  (Z.abs windowStart < 2 ^ 52)%Z -> (Z.abs windowEnd < 2 ^ 52)%Z ->
  (Z.abs now < 2 ^ 52)%Z ->
  (inject_Z windowStart - inject_Z now <= binary64 (t - inject_Z now))%Q
  /\ (binary64 (t - inject_Z now) <= inject_Z windowEnd - inject_Z now)%Q.
Proof.
  intros Hlo Hhi Ha Hb Hnow.
  assert (Hwa : (inject_Z windowStart - inject_Z now == inject_Z (windowStart - now))%Q)
    by (unfold Z.sub; rewrite inject_Z_plus, inject_Z_opp; reflexivity).
  assert (Hwb : (inject_Z windowEnd - inject_Z now == inject_Z (windowEnd - now))%Q)
    by (unfold Z.sub; rewrite inject_Z_plus, inject_Z_opp; reflexivity).
  rewrite Hwa, Hwb. apply DoubleFacts.binary64_between; try lia; lra.
Qed.

(** C6, amended.  For a Job with a distributed-window schedule
    [{start, end}], [start < end], [scheduleTask] admits it with delay
    [max(0, t - now)], where [t = start + u * (end - start)] and [u] is
    the answer of [Math.random()], in [0, 1); every operation is one of
    Number arithmetic, rounded to the nearest double.  With [start], [end]
    and [now] below [2 ^ 52] in magnitude, [t] lies in [start, end], the
    end included, and when [now <= start] so does the execution time
    [now + delay].  (The uniform law of [u] is the contract of
    [Math.random].) *)
Theorem distributed_delay_in_window
        (task : Task) (now : Z) (st : Scheduler) (windowStart windowEnd : Z) :
  (forall n, (0 <= random n)%Q /\ (random n < 1)%Q) ->
  schedule task = distributed windowStart windowEnd ->
  (windowStart < windowEnd)%Z ->
  (Z.abs windowStart < 2 ^ 52)%Z -> (Z.abs windowEnd < 2 ^ 52)%Z ->
  (Z.abs now < 2 ^ 52)%Z ->
  exists (u t : Q) (job : Job Config),
    u = random (draws st) /\ (0 <= u)%Q /\ (u < 1)%Q
    /\ t = binary64 (inject_Z windowStart
                     + binary64 (u * binary64 (inject_Z windowEnd - inject_Z windowStart)))
    /\ queue (scheduleTask task now st) = queue st ++ [job]
    /\ data job = task
    /\ delay (opts job) = Some (Qmax 0 (binary64 (t - inject_Z now)))
    /\ (inject_Z windowStart <= t)%Q /\ (t <= inject_Z windowEnd)%Q
    /\ ((now <= windowStart)%Z ->
        forall d, delay (opts job) = Some d ->
                  (inject_Z windowStart <= inject_Z now + d)%Q
                  /\ (inject_Z now + d <= inject_Z windowEnd)%Q).
Proof.
  intros Hrandom Hs Hlt Ha Hb Hn.
  destruct (Hrandom (draws st)) as [Hu0 Hu1].
  destruct (distributed_sample (random (draws st)) windowStart windowEnd Hu0 Hu1
              (Z.lt_le_incl _ _ Hlt) Ha Hb) as [Hlo Hhi].
  exists (random (draws st)). unfold TaskScheduler.scheduleTask. rewrite Hs.
  do 2 eexists. cbn.
  split; [reflexivity |]. split; [exact Hu0 |]. split; [exact Hu1 |].
  split; [reflexivity |]. split; [reflexivity |]. split; [reflexivity |].
  split; [reflexivity |]. split; [exact Hlo |]. split; [exact Hhi |].
  intros Hnow d Hd. injection Hd as <-.
  destruct (distributed_wait _ windowStart windowEnd now Hlo Hhi Ha Hb Hn) as [Hwlo Hwhi].
  assert (Hna : (inject_Z now <= inject_Z windowStart)%Q)
    by (rewrite <- Zle_Qle; exact Hnow).
  revert Hwlo Hwhi.
  generalize (binary64
                (binary64 (inject_Z windowStart
                           + binary64 (random (draws st)
                                       * binary64 (inject_Z windowEnd - inject_Z windowStart)))
                 - inject_Z now)).
  intros wait Hwlo Hwhi.
  destruct (Q.max_spec 0 wait) as [[Hcmp Hmax] | [Hcmp Hmax]]; rewrite Hmax; lra.
Qed.

(** *** What admission hands to the queue *)

(** [scheduleTask] adds one job, with the task as its data, the task's
    priority, [TASK_RETRY_ATTEMPTS] attempts and, by schedule descriptor:
    no delay; the delay [scheduledFor - now]; the clamped delay to the
    time drawn in the window; the cron rule as repeat option. *)
Lemma scheduleTask_admits (task : Task) (now : Z) (st : Scheduler) :
  exists job : Job Config,
    queue (scheduleTask task now st) = queue st ++ [job]
    /\ data job = task
    /\ jobId job = jobIdOf (added st)
    /\ attemptsMade job = 0
    /\ optPriority (opts job) = priority task
    /\ optAttempts (opts job) = TASK_RETRY_ATTEMPTS
    /\ match schedule task with
       | immediate => delay (opts job) = None /\ repeat (opts job) = None
       | scheduled scheduledFor =>
           delay (opts job) = Some (inject_Z (scheduledFor - now))
           /\ repeat (opts job) = None
       | distributed windowStart windowEnd =>
           delay (opts job)
           = Some (Qmax 0
                     (binary64
                        (binary64 (inject_Z windowStart
                                   + binary64 (random (draws st)
                                               * binary64 (inject_Z windowEnd
                                                           - inject_Z windowStart)))
                         - inject_Z now)))
           /\ repeat (opts job) = None
       | cron rule => delay (opts job) = None /\ repeat (opts job) = Some rule
       end.
Proof.
  unfold TaskScheduler.scheduleTask.
  destruct (schedule task); eexists; cbn;
    repeat match goal with |- _ /\ _ => split end; reflexivity.
Qed.

Lemma selectBestProfile_config (t1 t2 : Task) (profiles : list Profile) :
  config t1 = config t2 -> selectBestProfile t1 profiles = selectBestProfile t2 profiles.
Proof.
  intros H. unfold TaskScheduler.selectBestProfile. rewrite H. reflexivity.
Qed.

(** *** Retrying *)

(** [retryTask(id)] raises 'Task not found' when the store has no Job
    with that id; raises 'Only failed tasks can be retried', leaving
    store and queue as they were, when the Job's status is not FAILED;
    and for a FAILED Job stores status PENDING and attempt count 0 and
    hands the reset Job to [scheduleTask]: one job is added to the queue,
    carrying the reset Job, its priority and [TASK_RETRY_ATTEMPTS]
    attempts, with what [scheduleTask] computes for its schedule. *)
Lemma retryTask_resets_and_admits (taskId : string) (now : Z) (st : Scheduler) :
  (findOne taskId st = None ->
   retryTask taskId now st = (st, Err (TaskNotFound taskId)))
  /\ (forall t, findOne taskId st = Some t -> status t <> FAILED ->
                retryTask taskId now st = (st, Err OnlyFailedRetried))
  /\ (forall t, findOne taskId st = Some t -> status t = FAILED ->
       exists st' t' (job : Job Config),
         retryTask taskId now st = (st', Ok tt)
         /\ t' = set_attempts 0 (set_status PENDING t)
         /\ findOne taskId st' = Some t'
         /\ status t' = PENDING /\ attempts t' = 0
         /\ queue st' = queue (scheduleTask t' now st)
         /\ queue st' = queue st ++ [job]
         /\ data job = t'
         /\ jobId job = jobIdOf (added st)
         /\ attemptsMade job = 0
         /\ optPriority (opts job) = priority t
         /\ optAttempts (opts job) = TASK_RETRY_ATTEMPTS
         /\ match schedule t with
            | immediate => delay (opts job) = None /\ repeat (opts job) = None
            | scheduled scheduledFor =>
                delay (opts job) = Some (inject_Z (scheduledFor - now))
                /\ repeat (opts job) = None
            | distributed windowStart windowEnd =>
                delay (opts job)
                = Some (Qmax 0
                          (binary64
                             (binary64 (inject_Z windowStart
                                        + binary64 (random (draws st)
                                                    * binary64 (inject_Z windowEnd
                                                                - inject_Z windowStart)))
                              - inject_Z now)))
                /\ repeat (opts job) = None
            | cron rule => delay (opts job) = None /\ repeat (opts job) = Some rule
            end).
Proof.
  unfold TaskScheduler.retryTask. split; [| split].
  - intros Hfind. rewrite Hfind. reflexivity.
  - intros t Hfind Hstatus. rewrite Hfind.
    destruct (status t); try reflexivity. contradiction Hstatus. reflexivity.
  - intros t Hfind Hstatus. rewrite Hfind, Hstatus. cbn [status_eqb negb].
    destruct (scheduleTask_admits (set_attempts 0 (set_status PENDING t)) now
                (updateOne taskId (fun t0 => set_attempts 0 (set_status PENDING t0)) st))
      as [job Hjob].
    eexists. exists (set_attempts 0 (set_status PENDING t)), job.
    split; [reflexivity |]. split; [reflexivity |].
    split.
    { unfold findOne at 1. rewrite scheduleTask_tasks.
      change (findOne taskId
                (updateOne taskId (fun t0 => set_attempts 0 (set_status PENDING t0)) st)
              = Some (set_attempts 0 (set_status PENDING t))).
      rewrite findOne_updateOne by reflexivity. rewrite Hfind. reflexivity. }
    split; [reflexivity |]. split; [reflexivity |].
    split.
    { apply scheduleTask_only_queue; reflexivity. }
    exact Hjob.
Qed.

(** *** Submitting *)

(** The record and the job of a submission that got through.  (For a
    fixed-delay schedule the delay is stated when [scheduledFor] is not
    in the past.) *)
Lemma insertOne_then_scheduleTask (task : Task) (now : Z) (st : Scheduler) :
  exists job : Job Config,
    tasks (scheduleTask task now (insertOne task st)) = tasks st ++ [task]
    /\ queue (scheduleTask task now (insertOne task st)) = queue st ++ [job]
    /\ data job = task
    /\ jobId job = jobIdOf (added st)
    /\ attemptsMade job = 0
    /\ optPriority (opts job) = priority task
    /\ optAttempts (opts job) = TASK_RETRY_ATTEMPTS
    /\ match schedule task with
       | immediate => delay (opts job) = None /\ repeat (opts job) = None
       | scheduled scheduledFor =>
           ((now <= scheduledFor)%Z ->
            delay (opts job) = Some (inject_Z (scheduledFor - now)))
           /\ repeat (opts job) = None
       | distributed windowStart windowEnd =>
           delay (opts job)
           = Some (Qmax 0
                     (binary64
                        (binary64 (inject_Z windowStart
                                   + binary64 (random (draws st)
                                               * binary64 (inject_Z windowEnd
                                                           - inject_Z windowStart)))
                         - inject_Z now)))
           /\ repeat (opts job) = None
       | cron rule => delay (opts job) = None /\ repeat (opts job) = Some rule
       end.
Proof.
  destruct (scheduleTask_admits task now (insertOne task st))
    as (job & Hq & Hdata & Hid & Hmade & Hpriority & Hattempts & Hopts).
  exists job. split; [rewrite scheduleTask_tasks; reflexivity |].
  do 6 (split; [assumption |]).
  destruct (schedule task); try exact Hopts.
  destruct Hopts as [Hdelay Hrepeat]. split; [intros _; exact Hdelay | exact Hrepeat].
Qed.


(** [cancelTask] stores CANCELLED whatever the status was. *)
Lemma cancelTask_stores_cancelled (taskId : string) (st : Scheduler) (t : Task) :
  findOne taskId st = Some t ->
  findOne taskId (cancelTask taskId st) = Some (set_status CANCELLED t).
Proof.
  intros Hfind. unfold cancelTask.
  assert (Hupd : findOne taskId (updateOne taskId (set_status CANCELLED) st)
                 = Some (set_status CANCELLED t)).
  { rewrite findOne_updateOne by reflexivity. rewrite Hfind. reflexivity. }
  destruct (getJob taskId (updateOne taskId (set_status CANCELLED) st)); exact Hupd.
Qed.

End Facts.

Import SchedulerScenario.

(** C4, evaluated on the code.  The claim asks that [cancelTask] leaves
    the stored status of a RUNNING, COMPLETED or FAILED Job as it is.
    For one Job submitted and then (1) being executed, (2) completed,
    (3) failed at its last attempt, [cancelTask] returns and the stored
    status is CANCELLED in all three cases. *)
Theorem cancelTask_overwrites_status :
  create warmupNow "u1"%string [] 0 (init Config) = (submitted, Ok (data theJob))
  /\ queue submitted = [theJob]
  /\ (statusOf "task-u1"%string whileRunning = Some RUNNING
      /\ statusOf "task-u1"%string (cancel "task-u1"%string whileRunning) = Some CANCELLED)
  /\ (statusOf "task-u1"%string afterSuccess = Some COMPLETED
      /\ statusOf "task-u1"%string (cancel "task-u1"%string afterSuccess) = Some CANCELLED)
  /\ (statusOf "task-u1"%string afterLastFailure = Some FAILED
      /\ statusOf "task-u1"%string (cancel "task-u1"%string afterLastFailure)
         = Some CANCELLED).
Proof.
  repeat match goal with |- _ /\ _ => split end; evaluate.
Qed.

(** C5, evaluated on the code.  The claim asks for the delay
    [scheduledFor - now] clamped at 0.  A Job submitted at time 5000 with
    [scheduledFor = 1000] is added to the queue with delay -4000: the
    fixed-delay branch has no clamp (the distributed branch has one). *)
Theorem scheduled_delay_negative :
  exists st task job,
    create (warmupAt 1000) "u1"%string [] 5000 (init Config) = (st, Ok task)
    /\ schedule task = scheduled 1000
    /\ queue st = [job]
    /\ data job = task
    /\ delay (opts job) = Some (inject_Z (-4000))
    /\ (inject_Z (-4000) < 0)%Q.
Proof.
  do 3 eexists. repeat (split; [evaluate |]). reflexivity.
Qed.

(** C6 as stated fails on the code.  With the window
    [1700000000000, 1700003600000] (one hour), submitted a thousand
    seconds before its start, and [Math.random()] answering
    [1 - 2 ^ -52], the sum [start + u * (end - start)] rounds up to [end]:
    the Job is admitted with [now + delay = end], not before [end], and
    its delay is not the exact [max(0, start + u * (end - start) - now)]. *)
Lemma distributed_time_reaches_window_end :
  (0 <= almostOne 0)%Q /\ (almostOne 0 < 1)%Q
  /\ (1700000000000 < 1700003600000)%Z
  /\ (1699999000000 <= 1700000000000)%Z
  /\ exists st task (job : Job Config) (d : Q),
      @createTask Config accept noRegion 3 jobIds almostOne
        (warmupWithin 1700000000000 1700003600000) "u1"%string [] 1699999000000
        (init Config) = (st, Ok task)
      /\ schedule task = distributed 1700000000000 1700003600000
      /\ queue st = [job]
      /\ data job = task
      /\ delay (opts job) = Some d
      /\ (inject_Z 1699999000000 + d == inject_Z 1700003600000)%Q
      /\ ~ (inject_Z 1699999000000 + d < inject_Z 1700003600000)%Q
      /\ ~ (d == Qmax 0 (inject_Z 1700000000000
                         + almostOne 0 * (inject_Z 1700003600000 - inject_Z 1700000000000)
                         - inject_Z 1699999000000))%Q.
Proof.
  split; [unfold almostOne, Qle; cbn; lia |].
  split; [unfold almostOne, Qlt; cbn; lia |].
  split; [lia |]. split; [lia |].
  do 4 eexists. repeat (split; [evaluate |]).
  split; intros H; vm_compute in H; discriminate.
Qed.

Lemma distributed_delay_in_window_witness :
  (forall n, (0 <= half n)%Q /\ (half n < 1)%Q)
  /\ (1000 < 2000)%Z
  /\ (Z.abs 1000 < 2 ^ 52)%Z /\ (Z.abs 2000 < 2 ^ 52)%Z /\ (Z.abs 500 < 2 ^ 52)%Z
  /\ exists (u t : Q) (job : Job Config),
      u = half 0 /\ (0 <= u)%Q /\ (u < 1)%Q
      /\ t = binary64 (inject_Z 1000 + binary64 (u * binary64 (inject_Z 2000 - inject_Z 1000)))
      /\ queue (scheduleTask 3 jobIds half
                  (newTask (warmupWithin 1000 2000) tt "u1"%string 500) 500 (init Config))
         = queue (init Config) ++ [job]
      /\ data job = newTask (warmupWithin 1000 2000) tt "u1"%string 500
      /\ delay (opts job) = Some (Qmax 0 (binary64 (t - inject_Z 500)))
      /\ (inject_Z 1000 <= t)%Q /\ (t <= inject_Z 2000)%Q
      /\ ((500 <= 1000)%Z ->
          forall d, delay (opts job) = Some d ->
                    (inject_Z 1000 <= inject_Z 500 + d)%Q
                    /\ (inject_Z 500 + d <= inject_Z 2000)%Q).
Proof.
  assert (Hhalf : forall n, (0 <= half n)%Q /\ (half n < 1)%Q).
  { intros n. unfold half, Qle, Qlt. cbn. lia. }
  split; [exact Hhalf |]. split; [lia |].
  split; [reflexivity |]. split; [reflexivity |]. split; [reflexivity |].
  apply (distributed_delay_in_window Config 3 jobIds half
           (newTask (warmupWithin 1000 2000) tt "u1"%string 500) 500 (init Config)
           1000 2000 Hhalf); reflexivity.
Defined.

(** C8, evaluated on the code.  The claim asks that [retryTask]
    re-admits a FAILED Job per its schedule descriptor, which for a
    fixed-delay schedule is the delay [scheduledFor - now] clamped at 0.
    A Job submitted at time 0 for [scheduledFor = 1000] fails its last
    attempt at time 1010; [retryTask] at time 5000 returns, stores
    PENDING and attempt count 0, and adds the Job to the queue with delay
    -4000: [retryTask] admits through [scheduleTask], whose fixed-delay
    branch has no clamp. *)
Theorem retryTask_readmits_with_negative_delay :
  exists st0 task job0 st1 st2 t' job,
    create (warmupAt 1000) "u1"%string [] 0 (init Config) = (st0, Ok task)
    /\ queue st0 = [job0]
    /\ delay (opts job0) = Some (inject_Z 1000)
    /\ process (attempt 2 job0) (Threw "net::ERR_TIMED_OUT"%string) at1010 st0
       = (st1, Err "net::ERR_TIMED_OUT"%string)
    /\ statusOf "task-u1"%string st1 = Some FAILED
    /\ retry "task-u1"%string 5000 st1 = (st2, Ok tt)
    /\ findOne "task-u1"%string st2 = Some t'
    /\ status t' = PENDING /\ attempts t' = 0
    /\ schedule t' = scheduled 1000
    /\ queue st2 = [job0; job]
    /\ data job = t'
    /\ delay (opts job) = Some (inject_Z (-4000))
    /\ (inject_Z (-4000) < 0)%Q.
Proof.
  do 7 eexists. repeat (split; [evaluate |]). reflexivity.
Qed.



End SchedulerFacts.

(* ================================================================== *)
(** ** Further properties of the browser pool *)
(* ================================================================== *)

Module PoolMore.

Import BrowserPool.

(** *** The browser map *)

Lemma map_get_set_same (k : string) (w : BrowserWrapper) (m : list (string * BrowserWrapper)) :
  map_get k (map_set k w m) = Some w.
Proof.
  induction m as [| [k' w'] m IH]; cbn.
  - rewrite String.eqb_refl. reflexivity.
  - destruct (String.eqb k' k) eqn:E; cbn.
    + rewrite String.eqb_refl. reflexivity.
    + rewrite E. exact IH.
Qed.

Lemma map_get_set_other (k k' : string) (w : BrowserWrapper)
      (m : list (string * BrowserWrapper)) :
  k <> k' -> map_get k' (map_set k w m) = map_get k' m.
Proof.
  intros Hk. induction m as [| [k0 w0] m IH]; cbn.
  - destruct (String.eqb_spec k k'); [contradiction | reflexivity].
  - destruct (String.eqb_spec k0 k) as [-> | Hk0]; cbn.
    + destruct (String.eqb_spec k k'); [contradiction | reflexivity].
    + destruct (String.eqb k0 k'); [reflexivity | exact IH].
Qed.

Lemma length_map_set (k : string) (w : BrowserWrapper) (m : list (string * BrowserWrapper)) :
  List.length (map_set k w m)
  = match map_get k m with Some _ => List.length m | None => S (List.length m) end.
Proof.
  induction m as [| [k' w'] m IH]; cbn.
  - reflexivity.
  - destruct (String.eqb k' k); cbn.
    + reflexivity.
    + rewrite IH. destruct (map_get k m); reflexivity.
Qed.

Lemma map_get_delete_same (k : string) (m : list (string * BrowserWrapper)) :
  map_get k (map_delete k m) = None.
Proof.
  unfold map_delete. induction m as [| [k' w'] m IH]; cbn.
  - reflexivity.
  - destruct (String.eqb k' k) eqn:E; cbn.
    + exact IH.
    + rewrite E. exact IH.
Qed.

Lemma map_get_delete_other (k k' : string) (m : list (string * BrowserWrapper)) :
  k <> k' -> map_get k' (map_delete k m) = map_get k' m.
Proof.
  intros Hk. unfold map_delete. induction m as [| [k0 w0] m IH]; cbn.
  - reflexivity.
  - destruct (String.eqb_spec k0 k) as [-> | Hk0]; cbn.
    + destruct (String.eqb_spec k k'); [contradiction | exact IH].
    + destruct (String.eqb k0 k'); [reflexivity | exact IH].
Qed.

Lemma length_map_delete (k : string) (m : list (string * BrowserWrapper)) :
  List.length (map_delete k m) <= List.length m.
Proof.
  unfold map_delete. induction m as [| [k' w'] m IH]; cbn.
  - lia.
  - destruct (String.eqb k' k); cbn; lia.
Qed.

Lemma map_delete_absent (k : string) (m : list (string * BrowserWrapper)) :
  map_get k m = None -> map_delete k m = m.
Proof.
  unfold map_delete. induction m as [| [k' w'] m IH]; cbn; intros Hget.
  - reflexivity.
  - destruct (String.eqb k' k); [discriminate |]. cbn. rewrite IH by exact Hget. reflexivity.
Qed.

Lemma write_wrapper_size (w : BrowserWrapper) (st : Pool) :
  size (write_wrapper w st) = size st.
Proof.
  unfold write_wrapper, size. destruct (map_get (id w) (browsers st)) eqn:E; cbn.
  - rewrite length_map_set, E. reflexivity.
  - reflexivity.
Qed.

(** *** Closing *)

(** X5.  [closeBrowser(id)] removes the browser from the map and from the
    available list and touches no other browser: every other id keeps its
    wrapper and its place on the available list; the wait queue is left
    alone. *)
Theorem closeBrowser_untracks_only_that_browser (i : string) (st : Pool) :
  map_get i (browsers (closeBrowser i st)) = None
  /\ (map_get i (browsers st) <> None -> ~ In i (availableBrowsers (closeBrowser i st)))
  /\ (forall j, j <> i ->
        map_get j (browsers (closeBrowser i st)) = map_get j (browsers st)
        /\ (In j (availableBrowsers (closeBrowser i st)) <-> In j (availableBrowsers st)))
  /\ browserQueue (closeBrowser i st) = browserQueue st.
Proof.
  unfold closeBrowser. destruct (map_get i (browsers st)) as [w |] eqn:Hget;
    cbn [browsers availableBrowsers browserQueue set_browsers set_available].
  - split; [apply map_get_delete_same |]. split.
    + intros _ Hin. apply filter_In in Hin. destruct Hin as [_ Hneq].
      rewrite String.eqb_refl in Hneq. discriminate.
    + split; [| reflexivity]. intros j Hj. split.
      * apply map_get_delete_other. congruence.
      * rewrite filter_In. split; [intros [H _]; exact H |].
        intros H. split; [exact H |].
        destruct (String.eqb_spec j i); [contradiction | reflexivity].
  - split; [exact Hget |]. split; [intros H; contradiction H; reflexivity |].
    split; [| reflexivity]. intros j Hj. split; [reflexivity | tauto].
Qed.

Section Bounds.

Variable maxBrowsers : nat.
Variable uuidv4 : nat -> string.
Variable launch : nat -> option Browser.
Variable probe : Z -> Browser -> bool.

Local Abbreviation createBrowser := (BrowserPool.createBrowser uuidv4 launch).
Local Abbreviation createBrowsers := (BrowserPool.createBrowsers uuidv4 launch).
Local Abbreviation recycleBrowser := (BrowserPool.recycleBrowser maxBrowsers uuidv4 launch).
Local Abbreviation acquireBrowser := (BrowserPool.acquireBrowser maxBrowsers uuidv4 launch).
Local Abbreviation releaseBrowser := (BrowserPool.releaseBrowser maxBrowsers uuidv4 launch).
Local Abbreviation acquireBrowser_start := (BrowserPool.acquireBrowser_start maxBrowsers).
Local Abbreviation acquireBrowser_resume := (BrowserPool.acquireBrowser_resume uuidv4 launch).
Local Abbreviation initialize := (BrowserPool.initialize maxBrowsers uuidv4 launch).
Local Abbreviation healthChecks := (BrowserPool.healthChecks maxBrowsers uuidv4 launch probe).
Local Abbreviation maintenance := (BrowserPool.maintenance maxBrowsers uuidv4 launch probe).

Lemma closeBrowser_size (i : string) (st : Pool) :
  size (closeBrowser i st) <= size st.
Proof.
  unfold closeBrowser, size. destruct (map_get i (browsers st)); cbn.
  - apply length_map_delete.
  - lia.
Qed.

Lemma createBrowser_size (p : option Profile) (now : Z) (st : Pool) :
  size (fst (createBrowser p now st)) <= S (size st).
Proof.
  unfold BrowserPool.createBrowser, size. destruct (launch (created st)); cbn.
  - rewrite length_map_set. destruct (map_get _ _); lia.
  - lia.
Qed.

Lemma recycleBrowser_size (i : string) (now : Z) (st : Pool) :
  size st <= maxBrowsers -> size (fst (recycleBrowser i now st)) <= maxBrowsers.
Proof.
  intros Hsize. unfold BrowserPool.recycleBrowser.
  pose proof (closeBrowser_size i st) as Hclose.
  destruct (negb (isShuttingDown (closeBrowser i st))); cbn [andb]; [| cbn; lia].
  destruct (Nat.ltb_spec (size (closeBrowser i st)) maxBrowsers) as [Hlt | Hge]; [| cbn; lia].
  pose proof (createBrowser_size None now (closeBrowser i st)) as Hcreate.
  destruct (createBrowser None now (closeBrowser i st)) as [st2 [wr | e]]; cbn in *; lia.
Qed.

(** Calls that run one at a time keep the pool within [maxBrowsers]:
    each of them creates a browser only after testing the size. *)
Lemma atomic_calls_keep_bound (p : Profile) (b : Browser) (i : string)
        (now : Z) (st : Pool) :
  size st <= maxBrowsers ->
  size (fst (acquireBrowser p now st)) <= maxBrowsers
  /\ size (fst (releaseBrowser b now st)) <= maxBrowsers
  /\ size (fst (recycleBrowser i now st)) <= maxBrowsers.
Proof.
  intros Hsize. split; [| split].
  - unfold BrowserPool.acquireBrowser.
    destruct (isShuttingDown st); [exact Hsize |].
    unfold getAvailableBrowser.
    destruct (availableBrowsers st) as [| j rest].
    + destruct (Nat.ltb_spec (size st) maxBrowsers) as [Hlt | Hge]; [| exact Hsize].
      pose proof (createBrowser_size (Some p) now st) as Hcreate.
      destruct (createBrowser (Some p) now st) as [st2 [wr | e]]; cbn in Hcreate.
      * unfold lease. cbn [fst]. rewrite write_wrapper_size. lia.
      * cbn. lia.
    + destruct (map_get j (browsers st)) as [wr |].
      * unfold lease. cbn [fst]. rewrite write_wrapper_size. exact Hsize.
      * change (size (set_available rest st)) with (size st).
        destruct (Nat.ltb_spec (size st) maxBrowsers) as [Hlt | Hge]; [| exact Hsize].
        pose proof (createBrowser_size (Some p) now (set_available rest st)) as Hcreate.
        change (size (set_available rest st)) with (size st) in Hcreate.
        destruct (createBrowser (Some p) now (set_available rest st)) as [st2 [wr | e]];
          cbn in Hcreate.
        -- unfold lease. cbn [fst]. rewrite write_wrapper_size. lia.
        -- cbn. lia.
  - unfold BrowserPool.releaseBrowser.
    destruct (findWrapperByBrowser b st) as [w |]; [| exact Hsize].
    match goal with
    | |- context [if ?c then _ else _] => destruct c
    end.
    + match goal with
      | |- context [BrowserPool.recycleBrowser _ _ _ ?j ?t ?s] =>
          pose proof (recycleBrowser_size j t s) as Hrec;
          rewrite write_wrapper_size in Hrec; specialize (Hrec Hsize);
          destruct (BrowserPool.recycleBrowser maxBrowsers uuidv4 launch j t s)
            as [st2 [u | e]]; exact Hrec
      end.
    + match goal with
      | |- context [match browserQueue ?s with _ => _ end] =>
          destruct (browserQueue s) as [| callback rest]
      end.
      * change (size (write_wrapper
                        (mkWrapper (id w) (browser w) None (createdAt w) (lastUsed w)
                                   (S (tasksCompleted w)) false) st) <= maxBrowsers).
        rewrite write_wrapper_size. exact Hsize.
      * unfold lease. cbn [fst]. rewrite write_wrapper_size.
        change (size (write_wrapper
                        (mkWrapper (id w) (browser w) None (createdAt w) (lastUsed w)
                                   (S (tasksCompleted w)) false) st) <= maxBrowsers).
        rewrite write_wrapper_size. exact Hsize.
  - apply recycleBrowser_size. exact Hsize.
Qed.

(** *** Leases *)

Lemma findWrapperByBrowser_browser (b : Browser) (st : Pool) (w : BrowserWrapper) :
  findWrapperByBrowser b st = Some w -> browser w = b.
Proof.
  unfold findWrapperByBrowser.
  destruct (find (fun e => Nat.eqb (browser (snd e)) b) (browsers st)) as [e |] eqn:Hfind;
    [| discriminate].
  cbn. intros [= <-]. apply find_some in Hfind. destruct Hfind as [_ Heq].
  apply Nat.eqb_eq. exact Heq.
Qed.

(** X2.  [acquireBrowser] serves the available list first in, first out:
    with a tracked browser at the head of [availableBrowsers] it leases
    that one, marks it in use for the caller's profile at the current
    time, and takes it off the list; nothing is created and nobody is
    queued. *)
Theorem acquireBrowser_takes_first_available
        (p : Profile) (now : Z) (st : Pool) (i : string) (rest : list string)
        (w : BrowserWrapper) :
  isShuttingDown st = false ->
  availableBrowsers st = i :: rest ->
  map_get i (browsers st) = Some w ->
  id w = i ->
  exists st',
    acquireBrowser p now st = (st', Leased (browser w))
    /\ availableBrowsers st' = rest
    /\ map_get i (browsers st')
       = Some (mkWrapper i (browser w) (Some p) (createdAt w) now (tasksCompleted w) true)
    /\ browserQueue st' = browserQueue st
    /\ created st' = created st
    /\ size st' = size st.
Proof.
  intros Hup Havail Hget Hid.
  unfold BrowserPool.acquireBrowser, getAvailableBrowser. rewrite Hup, Havail, Hget.
  unfold lease. eexists. split; [reflexivity |].
  unfold write_wrapper. cbn [id browsers set_available]. rewrite Hid, Hget.
  cbn. rewrite map_get_set_same, length_map_set, Hget.
  repeat split; reflexivity.
Qed.

(** X3.  A caller that finds the pool exhausted (nothing available, size
    at the maximum) is suspended at the tail of [browserQueue], and
    waiters are resumed in arrival order: the next release that does not
    recycle resumes the caller at the head of the queue, with the
    released browser. *)
Theorem exhausted_pool_queues_then_resumes_in_order
        (p : Profile) (b : Browser) (now now' : Z) (st : Pool) (w : BrowserWrapper) :
  isShuttingDown st = false ->
  availableBrowsers st = [] ->
  maxBrowsers <= size st ->
  findWrapperByBrowser b st = Some w ->
  S (tasksCompleted w) < 50 ->
  (now' - createdAt w <= 3600000)%Z ->
  exists st1 st2,
    acquireBrowser p now st = (st1, Suspended)
    /\ browserQueue st1 = browserQueue st ++ [p]
    /\ browsers st1 = browsers st
    /\ releaseBrowser b now' st1
       = (st2, ReleaseDone (Some (hd p (browserQueue st), b)))
    /\ browserQueue st2 = tl (browserQueue st ++ [p]).
Proof.
  intros Hup Havail Hfull Hfind Htasks Hage.
  unfold BrowserPool.acquireBrowser, getAvailableBrowser. rewrite Hup, Havail.
  destruct (Nat.ltb_spec (size st) maxBrowsers) as [Hlt | _]; [lia |].
  set (st1 := set_queue (browserQueue st ++ [p]) st).
  assert (Hfind1 : findWrapperByBrowser b st1 = Some w) by exact Hfind.
  assert (Hq : browserQueue st1
               = hd p (browserQueue st) :: tl (browserQueue st ++ [p])).
  { cbn. destruct (browserQueue st); reflexivity. }
  destruct (PoolFacts.release_resumes_head_waiter maxBrowsers uuidv4 launch
              b now' st1 w _ _ Hfind1 Htasks Hage Hq) as [st2 [Hrel Hq2]].
  exists st1, st2. rewrite (findWrapperByBrowser_browser b st w Hfind) in Hrel.
  repeat split; try reflexivity; assumption.
Qed.

(** X4.  Release then acquire is a round trip on an idle pool: a tracked
    browser released below the recycling thresholds, with nothing else
    available and nobody waiting, is the browser the next
    [acquireBrowser] returns, now with one more completed task and bound
    to the new caller's profile. *)
Theorem release_then_acquire_same_browser
        (p : Profile) (b : Browser) (now now' : Z) (st : Pool) (w : BrowserWrapper) :
  isShuttingDown st = false ->
  findWrapperByBrowser b st = Some w ->
  map_get (id w) (browsers st) = Some w ->
  availableBrowsers st = [] ->
  browserQueue st = [] ->
  S (tasksCompleted w) < 50 ->
  (now - createdAt w <= 3600000)%Z ->
  exists st1 st2,
    releaseBrowser b now st = (st1, ReleaseDone None)
    /\ acquireBrowser p now' st1 = (st2, Leased b)
    /\ map_get (id w) (browsers st2)
       = Some (mkWrapper (id w) b (Some p) (createdAt w) now' (S (tasksCompleted w)) true)
    /\ availableBrowsers st2 = []
    /\ size st2 = size st.
Proof.
  intros Hup Hfind Hget Havail Hq Htasks Hage.
  pose proof (findWrapperByBrowser_browser b st w Hfind) as Hb.
  unfold BrowserPool.releaseBrowser. rewrite Hfind. cbn [tasksCompleted id browser].
  unfold shouldRecycleBrowser. cbn [tasksCompleted createdAt].
  destruct (Nat.leb_spec 50 (S (tasksCompleted w))) as [Hle | _]; [lia |].
  destruct (Z.ltb_spec 3600000 (now - createdAt w)) as [Hlt | _]; [lia |].
  cbn [orb]. destruct st as [m a q sd c]. cbn in Hup, Hget, Havail, Hq. subst sd a q.
  unfold write_wrapper. cbn [id browsers]. rewrite Hget.
  cbn [browserQueue set_available set_browsers availableBrowsers browsers
         isShuttingDown created app].
  do 2 eexists. split; [reflexivity |].
  unfold BrowserPool.acquireBrowser, getAvailableBrowser.
  cbn [isShuttingDown availableBrowsers browsers set_available set_browsers
         browserQueue created].
  rewrite map_get_set_same. unfold lease, write_wrapper.
  cbn [id browser browsers set_available set_browsers fst availableBrowsers
         createdAt tasksCompleted browserQueue isShuttingDown created].
  rewrite map_get_set_same, Hb.
  split; [reflexivity |].
  cbn [browsers set_browsers availableBrowsers set_available].
  split; [apply map_get_set_same |]. split; [reflexivity |].
  unfold size. cbn [browsers set_browsers set_available].
  rewrite !length_map_set, map_get_set_same, Hget. reflexivity.
Qed.


(** *** Shutdown *)

Lemma closeBrowser_browsers (i : string) (st : Pool) :
  browsers (closeBrowser i st) = map_delete i (browsers st).
Proof.
  unfold closeBrowser. destruct (map_get i (browsers st)) eqn:E; cbn.
  - reflexivity.
  - symmetry. apply map_delete_absent. exact E.
Qed.

Lemma closeBrowser_flags (i : string) (st : Pool) :
  isShuttingDown (closeBrowser i st) = isShuttingDown st
  /\ browserQueue (closeBrowser i st) = browserQueue st
  /\ created (closeBrowser i st) = created st.
Proof.
  unfold closeBrowser. destruct (map_get i (browsers st)); cbn; repeat split; reflexivity.
Qed.

Lemma closeBrowser_keeps_available_tracked (i : string) (st : Pool) :
  (forall j, In j (availableBrowsers st) -> map_get j (browsers st) <> None) ->
  forall j, In j (availableBrowsers (closeBrowser i st)) ->
            map_get j (browsers (closeBrowser i st)) <> None.
Proof.
  intros Htracked j Hin. rewrite closeBrowser_browsers.
  unfold closeBrowser in Hin. destruct (map_get i (browsers st)) eqn:E; cbn in Hin.
  - apply filter_In in Hin. destruct Hin as [Hin Hneq].
    destruct (String.eqb_spec j i) as [-> | Hji]; [discriminate |].
    rewrite map_get_delete_other by congruence. apply Htracked. exact Hin.
  - rewrite map_delete_absent by exact E. apply Htracked. exact Hin.
Qed.

Lemma In_map_delete (k k0 : string) (w : BrowserWrapper) (m : list (string * BrowserWrapper)) :
  In (k, w) (map_delete k0 m) -> In (k, w) m /\ k <> k0.
Proof.
  unfold map_delete. rewrite filter_In. cbn. intros [Hin Hneq]. split; [exact Hin |].
  destruct (String.eqb_spec k k0); [discriminate | assumption].
Qed.

Lemma delete_all (l : list (string * BrowserWrapper)) (m : list (string * BrowserWrapper)) :
  (forall k w, In (k, w) m -> In k (map (fun e => id (snd e)) l)) ->
  fold_left (fun m' e => map_delete (id (snd e)) m') l m = [].
Proof.
  revert m. induction l as [| e l IH]; intros m Hm; cbn.
  - destruct m as [| [k w] m]; [reflexivity |].
    destruct (Hm k w (or_introl eq_refl)).
  - apply IH. intros k w Hin. apply In_map_delete in Hin. destruct Hin as [Hin Hneq].
    destruct (Hm k w Hin) as [Heq | Hl]; [congruence | exact Hl].
Qed.

Lemma closeAll_spec (l : list (string * BrowserWrapper)) (st : Pool) :
  let st' := fold_left (fun s e => closeBrowser (id (snd e)) s) l st in
  browsers st' = fold_left (fun m' e => map_delete (id (snd e)) m') l (browsers st)
  /\ isShuttingDown st' = isShuttingDown st
  /\ browserQueue st' = browserQueue st
  /\ ((forall j, In j (availableBrowsers st) -> map_get j (browsers st) <> None) ->
      forall j, In j (availableBrowsers st') -> map_get j (browsers st') <> None).
Proof.
  revert st. induction l as [| e l IH]; intros st; cbn.
  - repeat split; try reflexivity. intros H; exact H.
  - destruct (IH (closeBrowser (id (snd e)) st)) as [Hb [Hs [Hq Ha]]].
    destruct (closeBrowser_flags (id (snd e)) st) as [Hs' [Hq' _]].
    rewrite Hb, Hs, Hq, closeBrowser_browsers, Hs', Hq'.
    repeat split; try reflexivity.
    intros Htracked. rewrite <- closeBrowser_browsers, <- Hb. apply Ha.
    apply closeBrowser_keeps_available_tracked. exact Htracked.
Qed.


(** *** Creating several browsers *)

Lemma createBrowsers_ok (engine : nat -> Browser) (now : Z) (n : nat) (st : Pool) :
  (forall k, created st <= k < created st + n -> launch k = Some (engine k)) ->
  createBrowsers n now st
  = (mkPool
       (fold_left
          (fun m k => map_set (uuidv4 k) (mkWrapper (uuidv4 k) (engine k) None now now 0 false) m)
          (seq (created st) n) (browsers st))
       (availableBrowsers st ++ map uuidv4 (seq (created st) n))
       (browserQueue st) (isShuttingDown st) (created st + n),
     Ok tt).
Proof.
  revert st. induction n as [| n IH]; intros st Hlaunch.
  - cbn. rewrite app_nil_r, Nat.add_0_r. destruct st; reflexivity.
  - cbn [BrowserPool.createBrowsers]. unfold BrowserPool.createBrowser.
    rewrite (Hlaunch (created st)) by lia.
    cbn [id]. rewrite IH.
    + cbn [created browsers availableBrowsers browserQueue isShuttingDown
             set_created set_browsers set_available seq fold_left map].
      rewrite <- app_assoc. cbn [app]. f_equal. f_equal. lia.
    + cbn [created set_created set_browsers set_available]. intros k Hk.
      apply Hlaunch. lia.
Qed.

Lemma map_set_fresh (k : string) (w : BrowserWrapper) (m : list (string * BrowserWrapper)) :
  map_get k m = None -> map_set k w m = m ++ [(k, w)].
Proof.
  induction m as [| [k' w'] m IH]; cbn; intros Hget.
  - reflexivity.
  - destruct (String.eqb k' k); [discriminate |]. rewrite IH by exact Hget. reflexivity.
Qed.

Lemma map_get_app_fresh (k k' : string) (w : BrowserWrapper)
      (m : list (string * BrowserWrapper)) :
  k' <> k -> map_get k m = None -> map_get k (m ++ [(k', w)]) = None.
Proof.
  intros Hk. induction m as [| [k0 w0] m IH]; cbn; intros Hget.
  - destruct (String.eqb_spec k' k); [contradiction | reflexivity].
  - destruct (String.eqb k0 k); [discriminate | apply IH; exact Hget].
Qed.

Lemma set_all_fresh (mk : nat -> BrowserWrapper) (l : list nat)
      (m : list (string * BrowserWrapper)) :
  NoDup (map uuidv4 l) ->
  (forall k, In k l -> map_get (uuidv4 k) m = None) ->
  fold_left (fun m' k => map_set (uuidv4 k) (mk k) m') l m
  = m ++ map (fun k => (uuidv4 k, mk k)) l.
Proof.
  revert m. induction l as [| k l IH]; intros m Hnodup Hfresh; cbn.
  - rewrite app_nil_r. reflexivity.
  - inversion Hnodup as [| x xs Hnotin Hnodup']; subst.
    rewrite map_set_fresh by (apply Hfresh; left; reflexivity).
    rewrite IH.
    + rewrite <- app_assoc. reflexivity.
    + exact Hnodup'.
    + intros k' Hk'. apply map_get_app_fresh.
      * intros Heq. apply Hnotin. rewrite Heq. apply in_map. exact Hk'.
      * apply Hfresh. right. exact Hk'.
Qed.

Lemma NoDup_map_seq (n : nat) :
  (forall j k, j < n -> k < n -> uuidv4 j = uuidv4 k -> j = k) ->
  NoDup (map uuidv4 (seq 0 n)).
Proof.
  intros Hinj. induction n as [| n IH].
  - constructor.
  - rewrite seq_S, map_app. cbn. apply NoDup_app.
    + apply IH. intros j k Hj Hk. apply Hinj; lia.
    + constructor; [intros [] | constructor].
    + intros x Hx [Heq | []]. apply in_map_iff in Hx. destruct Hx as [j [Hj Hin]].
      apply in_seq in Hin. subst x. symmetry in Heq. apply Hinj in Heq; lia.
Qed.

(** X7.  [initialize()] on the empty pool, when the engine launches every
    time and the uuids are distinct, leaves exactly min(maxBrowsers, 5)
    browsers, in creation order, all idle with no completed task and all
    on the available list; so never more than [maxBrowsers]. *)
Theorem initialize_creates_initial_browsers (engine : nat -> Browser) (now : Z) :
  (forall k, k < Nat.min maxBrowsers 5 -> launch k = Some (engine k)) ->
  (forall j k, j < Nat.min maxBrowsers 5 -> k < Nat.min maxBrowsers 5 ->
               uuidv4 j = uuidv4 k -> j = k) ->
  exists st,
    initialize now empty = (st, Ok tt)
    /\ browsers st
       = map (fun k => (uuidv4 k, mkWrapper (uuidv4 k) (engine k) None now now 0 false))
             (seq 0 (Nat.min maxBrowsers 5))
    /\ availableBrowsers st = map uuidv4 (seq 0 (Nat.min maxBrowsers 5))
    /\ browserQueue st = []
    /\ size st = Nat.min maxBrowsers 5
    /\ size st <= maxBrowsers.
Proof.
  intros Hlaunch Hinj. unfold BrowserPool.initialize.
  rewrite (createBrowsers_ok engine) by (cbn; intros k Hk; apply Hlaunch; lia).
  eexists. split; [reflexivity |].
  cbn [browsers availableBrowsers browserQueue created empty app Nat.add].
  assert (Hb : fold_left
                 (fun m k => map_set (uuidv4 k)
                                     (mkWrapper (uuidv4 k) (engine k) None now now 0 false) m)
                 (seq 0 (Nat.min maxBrowsers 5)) []
               = map (fun k => (uuidv4 k,
                                mkWrapper (uuidv4 k) (engine k) None now now 0 false))
                     (seq 0 (Nat.min maxBrowsers 5))).
  { rewrite set_all_fresh; [reflexivity | apply NoDup_map_seq; exact Hinj |].
    intros k _. reflexivity. }
  split; [exact Hb |]. split; [reflexivity |]. split; [reflexivity |].
  unfold size. cbn [browsers]. rewrite Hb, length_map, length_seq. split; lia.
Qed.

Lemma createBrowsers_fails (engine : nat -> Browser) (now : Z) (k r : nat) (st : Pool) :
  (forall j, created st <= j < created st + k -> launch j = Some (engine j)) ->
  launch (created st + k) = None ->
  exists st',
    createBrowsers (k + S r) now st = (st', Err CreateFailed)
    /\ availableBrowsers st' = availableBrowsers st ++ map uuidv4 (seq (created st) k)
    /\ created st' = S (created st + k).
Proof.
  revert st. induction k as [| k IH]; intros st Hok Hfail.
  - cbn [Nat.add BrowserPool.createBrowsers]. unfold BrowserPool.createBrowser.
    rewrite Nat.add_0_r in Hfail. rewrite Hfail.
    eexists. split; [reflexivity |]. cbn. rewrite app_nil_r, Nat.add_0_r.
    split; reflexivity.
  - cbn [Nat.add BrowserPool.createBrowsers]. unfold BrowserPool.createBrowser.
    rewrite (Hok (created st)) by lia. cbn [id].
    match goal with
    | |- context [BrowserPool.createBrowsers _ _ _ _ ?s] =>
        destruct (IH s) as [st' [Hrun [Havail Hcreated]]]
    end.
    + cbn [created set_created set_browsers set_available]. intros j Hj.
      apply Hok. lia.
    + cbn [created set_created set_browsers set_available].
      replace (S (created st) + k) with (created st + S k) by lia. exact Hfail.
    + exists st'. split; [exact Hrun |].
      cbn [created availableBrowsers set_created set_browsers set_available] in Havail, Hcreated.
      split.
      * rewrite Havail. cbn [seq map]. rewrite <- app_assoc. reflexivity.
      * rewrite Hcreated. lia.
Qed.

(** X8.  When the engine fails at the k-th launch of [initialize()]
    (k below the initial count), [initialize] fails with 'Failed to
    create browser' and does not roll back: the k browsers launched
    before stay on the available list. *)
Theorem initialize_failure_keeps_earlier_browsers
        (engine : nat -> Browser) (now : Z) (k : nat) :
  k < Nat.min maxBrowsers 5 ->
  (forall j, j < k -> launch j = Some (engine j)) ->
  launch k = None ->
  exists st,
    initialize now empty = (st, Err CreateFailed)
    /\ availableBrowsers st = map uuidv4 (seq 0 k)
    /\ created st = S k.
Proof.
  intros Hk Hok Hfail. unfold BrowserPool.initialize.
  replace (Nat.min maxBrowsers 5) with (k + S (Nat.min maxBrowsers 5 - S k)) by lia.
  destruct (createBrowsers_fails engine now k (Nat.min maxBrowsers 5 - S k) empty)
    as [st [Hrun [Havail Hcreated]]].
  - cbn. intros j Hj. apply Hok. lia.
  - exact Hfail.
  - exists st. split; [exact Hrun |]. split; [exact Havail | exact Hcreated].
Qed.

(** *** Maintenance *)

Lemma filter_length_le (A : Type) (f g : A -> bool) (l : list A) :
  (forall y, g y = true -> f y = true) ->
  List.length (filter g l) <= List.length (filter f l).
Proof.
  intros Hgf. induction l as [| a l IH]; cbn.
  - lia.
  - destruct (g a) eqn:Hg.
    + rewrite (Hgf a Hg). cbn. lia.
    + destruct (f a); cbn; lia.
Qed.

Lemma filter_length_lt (A : Type) (f g : A -> bool) (l : list A) (x : A) :
  (forall y, g y = true -> f y = true) ->
  In x l -> f x = true -> g x = false ->
  List.length (filter g l) < List.length (filter f l).
Proof.
  intros Hgf Hin Hf Hg. induction l as [| a l IH]; [destruct Hin |].
  cbn. destruct Hin as [-> | Hin].
  - rewrite Hf, Hg. cbn. pose proof (filter_length_le A f g l Hgf). lia.
  - specialize (IH Hin). destruct (g a) eqn:Hga.
    + rewrite (Hgf a Hga). cbn. lia.
    + destruct (f a); cbn; lia.
Qed.

Lemma healthChecks_all_pass (now : Z) (st : Pool) :
  (forall k w, In (k, w) (browsers st) -> inUse w = false ->
               probe now (browser w) = true) ->
  forall fuel visited,
    List.length (filter (fun e => negb (existsb (String.eqb (fst e)) visited))
                        (browsers st)) < fuel ->
    healthChecks fuel visited now st = Some (st, Ok tt).
Proof.
  intros Hprobe. induction fuel as [| fuel IH]; intros visited Hfuel; [lia |].
  cbn [BrowserPool.healthChecks].
  destruct (find (fun e => negb (existsb (String.eqb (fst e)) visited)) (browsers st))
    as [[i wrapper] |] eqn:Hfind; [| reflexivity].
  apply find_some in Hfind. destruct Hfind as [Hin Hunvisited]. cbn [fst] in Hunvisited.
  assert (Hnext : healthChecks fuel (i :: visited) now st = Some (st, Ok tt)).
  { apply IH.
    assert (Hlt : List.length
                    (filter (fun e => negb (existsb (String.eqb (fst e)) (i :: visited)))
                            (browsers st))
                  < List.length
                      (filter (fun e => negb (existsb (String.eqb (fst e)) visited))
                              (browsers st))).
    { apply (filter_length_lt _ _ _ (browsers st) (i, wrapper)).
      - intros y Hy. cbn [existsb] in Hy. apply negb_true_iff in Hy.
        apply orb_false_iff in Hy. destruct Hy as [_ Hy]. rewrite Hy. reflexivity.
      - exact Hin.
      - exact Hunvisited.
      - cbn [existsb fst]. rewrite String.eqb_refl. reflexivity. }
    lia. }
  destruct (inUse wrapper) eqn:Huse; [exact Hnext |].
  rewrite (Hprobe i wrapper Hin Huse). exact Hnext.
Qed.

(** X9.  A maintenance tick on a pool whose idle browsers all answer the
    probe, run with more fuel than there are browsers, ends and recycles
    nothing; when the available list is at the watermark min(3,
    maxBrowsers) or the pool is at its maximum, the tick leaves the pool
    exactly as it was. *)
Theorem maintenance_healthy_pool_unchanged (fuel : nat) (now : Z) (st : Pool) :
  (forall k w, In (k, w) (browsers st) -> inUse w = false ->
               probe now (browser w) = true) ->
  size st < fuel ->
  Nat.min 3 maxBrowsers <= List.length (availableBrowsers st) \/ maxBrowsers <= size st ->
  healthChecks fuel [] now st = Some (st, Ok tt)
  /\ maintenance fuel now st = Some st.
Proof.
  intros Hprobe Hfuel Hquiet.
  assert (Hchecks : healthChecks fuel [] now st = Some (st, Ok tt)).
  { apply healthChecks_all_pass; [exact Hprobe |].
    eapply Nat.le_lt_trans; [apply List.filter_length_le | exact Hfuel]. }
  split; [exact Hchecks |].
  unfold BrowserPool.maintenance. rewrite Hchecks.
  destruct (Nat.ltb_spec (List.length (availableBrowsers st)) (Nat.min 3 maxBrowsers))
    as [Hlow | _]; [| reflexivity].
  destruct (Nat.ltb_spec (size st) maxBrowsers) as [Hroom | _]; [| reflexivity].
  lia.
Qed.

(** X10.  The top-up of a maintenance tick: on a healthy pool with fewer
    than min(3, maxBrowsers) available browsers and room below the
    maximum, with the engine launching every time, the tick creates
    exactly the missing browsers and the available list reaches the
    watermark.  The new browsers are not offered to callers waiting on
    [browserQueue]: the queue is unchanged. *)
Theorem maintenance_tops_up_to_watermark (fuel : nat) (now : Z) (st : Pool) :
  (forall k w, In (k, w) (browsers st) -> inUse w = false ->
               probe now (browser w) = true) ->
  (forall k, launch k <> None) ->
  size st < fuel ->
  List.length (availableBrowsers st) < Nat.min 3 maxBrowsers ->
  size st < maxBrowsers ->
  exists st',
    maintenance fuel now st = Some st'
    /\ availableBrowsers st'
       = availableBrowsers st
           ++ map uuidv4 (seq (created st)
                              (Nat.min 3 maxBrowsers - List.length (availableBrowsers st)))
    /\ List.length (availableBrowsers st') = Nat.min 3 maxBrowsers
    /\ created st'
       = created st + (Nat.min 3 maxBrowsers - List.length (availableBrowsers st))
    /\ browserQueue st' = browserQueue st.
Proof.
  intros Hprobe Hlaunch Hfuel Hlow Hroom.
  assert (Hchecks : healthChecks fuel [] now st = Some (st, Ok tt)).
  { apply healthChecks_all_pass; [exact Hprobe |].
    eapply Nat.le_lt_trans; [apply List.filter_length_le | exact Hfuel]. }
  unfold BrowserPool.maintenance. rewrite Hchecks.
  destruct (Nat.ltb_spec (List.length (availableBrowsers st)) (Nat.min 3 maxBrowsers))
    as [_ | Hge]; [| lia].
  destruct (Nat.ltb_spec (size st) maxBrowsers) as [_ | Hge]; [| lia].
  cbn [andb].
  rewrite (createBrowsers_ok
             (fun k => match launch k with Some b => b | None => 0 end)).
  - eexists. split; [reflexivity |].
    cbn [fst availableBrowsers created browserQueue].
    split; [reflexivity |]. split; [| split; reflexivity].
    rewrite length_app, length_map, length_seq. lia.
  - intros k _. specialize (Hlaunch k). destruct (launch k); [reflexivity | contradiction].
Qed.

(** *** Overlapping calls *)

Lemma acquireBrowser_halves (p : Profile) (now : Z) (st : Pool) :
  acquireBrowser p now st
  = match acquireBrowser_start p now st with
    | (st1, Finished r) => (st1, r)
    | (st1, Launching n) => acquireBrowser_resume n p now st1
    end.
Proof.
  unfold BrowserPool.acquireBrowser, BrowserPool.acquireBrowser_start.
  destruct (isShuttingDown st); [reflexivity |].
  destruct (getAvailableBrowser st) as [st1 [wrapper |]].
  - destruct (lease wrapper p now st1). reflexivity.
  - destruct (size st1 <? maxBrowsers); reflexivity.
Qed.

Lemma map_set_app_last (k : string) (w w' : BrowserWrapper)
      (m : list (string * BrowserWrapper)) :
  map_get k m = None -> map_set k w' (m ++ [(k, w)]) = m ++ [(k, w')].
Proof.
  induction m as [| [k0 w0] m IH]; cbn; intros Hget.
  - rewrite String.eqb_refl. reflexivity.
  - destruct (String.eqb k0 k); [discriminate |]. rewrite IH by exact Hget. reflexivity.
Qed.

Lemma map_get_app_last (k : string) (w : BrowserWrapper)
      (m : list (string * BrowserWrapper)) :
  map_get k m = None -> map_get k (m ++ [(k, w)]) = Some w.
Proof.
  induction m as [| [k0 w0] m IH]; cbn; intros Hget.
  - rewrite String.eqb_refl. reflexivity.
  - destruct (String.eqb k0 k); [discriminate | apply IH; exact Hget].
Qed.

Lemma map_get_app_other (k k' : string) (w : BrowserWrapper)
      (m : list (string * BrowserWrapper)) :
  k' <> k -> map_get k (m ++ [(k', w)]) = map_get k m.
Proof.
  intros Hk. induction m as [| [k0 w0] m IH]; cbn.
  - destruct (String.eqb_spec k' k); [contradiction | reflexivity].
  - destruct (String.eqb k0 k); [reflexivity | exact IH].
Qed.

(** The second half of a call whose launch went through, on a pool that
    does not track the new id yet. *)
Lemma acquireBrowser_resume_fresh (n : nat) (p : Profile) (now : Z) (st : Pool)
      (b : Browser) :
  launch n = Some b ->
  map_get (uuidv4 n) (browsers st) = None ->
  acquireBrowser_resume n p now st
  = (mkPool (browsers st ++ [(uuidv4 n, mkWrapper (uuidv4 n) b (Some p) now now 0 true)])
            (availableBrowsers st ++ [uuidv4 n]) (browserQueue st) (isShuttingDown st)
            (created st),
     Leased b).
Proof.
  intros Hlaunch Hfresh.
  unfold BrowserPool.acquireBrowser_resume, BrowserPool.createBrowser_settle.
  rewrite Hlaunch. unfold lease, write_wrapper, set_available, set_browsers.
  cbn [browsers availableBrowsers browserQueue isShuttingDown created id browser
       createdAt tasksCompleted].
  rewrite map_get_set_same.
  cbn [browsers availableBrowsers browserQueue isShuttingDown created id].
  rewrite (map_set_fresh _ _ _ Hfresh), (map_set_app_last _ _ _ _ Hfresh). reflexivity.
Qed.

(** X1.  The size test of [acquireBrowser] and the [browsers.set] of the
    browser it creates are separated by the await of the launch.  Run
    back to back, the two halves are [acquireBrowser]; but when a second
    call starts while the first awaits its launch, on a pool with nothing
    available and one browser below [maxBrowsers], both pass the size
    test, both create a browser, and the pool ends with
    [maxBrowsers + 1] browsers. *)
Theorem overlapping_acquires_exceed_maxBrowsers
        (p q : Profile) (now nowA nowB : Z) (st : Pool) (bA bB : Browser) :
  isShuttingDown st = false ->
  availableBrowsers st = [] ->
  S (size st) = maxBrowsers ->
  launch (created st) = Some bA ->
  launch (S (created st)) = Some bB ->
  map_get (uuidv4 (created st)) (browsers st) = None ->
  map_get (uuidv4 (S (created st))) (browsers st) = None ->
  uuidv4 (created st) <> uuidv4 (S (created st)) ->
  (forall p' t' st0,
      acquireBrowser p' t' st0
      = match acquireBrowser_start p' t' st0 with
        | (st1, Finished r) => (st1, r)
        | (st1, Launching n) => acquireBrowser_resume n p' t' st1
        end)
  /\ exists s1 s2 s3 s4,
      acquireBrowser_start p now st = (s1, Launching (created st))
      /\ acquireBrowser_start q now s1 = (s2, Launching (S (created st)))
      /\ size s2 = size st
      /\ acquireBrowser_resume (created st) p nowA s2 = (s3, Leased bA)
      /\ acquireBrowser_resume (S (created st)) q nowB s3 = (s4, Leased bB)
      /\ map_get (uuidv4 (created st)) (browsers s4)
         = Some (mkWrapper (uuidv4 (created st)) bA (Some p) nowA nowA 0 true)
      /\ map_get (uuidv4 (S (created st))) (browsers s4)
         = Some (mkWrapper (uuidv4 (S (created st))) bB (Some q) nowB nowB 0 true)
      /\ size s4 = S maxBrowsers.
Proof.
  intros Hshut Havail Hsize HbA HbB HfreshA HfreshB Hdistinct.
  split; [exact acquireBrowser_halves |].
  assert (Hlt : (size st <? maxBrowsers) = true) by (apply Nat.ltb_lt; lia).
  destruct st as [m avail waiters shutting n].
  cbn [isShuttingDown availableBrowsers created browsers] in *. subst shutting avail.
  unfold size in Hsize, Hlt. cbn [browsers] in Hsize, Hlt.
  do 4 eexists.
  split.
  { unfold BrowserPool.acquireBrowser_start, getAvailableBrowser, size.
    cbn [isShuttingDown availableBrowsers browsers]. rewrite Hlt. reflexivity. }
  split.
  { unfold BrowserPool.acquireBrowser_start, getAvailableBrowser, size, set_created.
    cbn [isShuttingDown availableBrowsers browsers created browserQueue]. rewrite Hlt.
    reflexivity. }
  split; [reflexivity |].
  split.
  { rewrite (acquireBrowser_resume_fresh n p nowA _ bA HbA); [reflexivity | exact HfreshA]. }
  split.
  { rewrite (acquireBrowser_resume_fresh (S n) q nowB _ bB HbB).
    - reflexivity.
    - cbn [browsers set_created]. apply map_get_app_fresh; [exact Hdistinct | exact HfreshB]. }
  cbn [browsers set_created availableBrowsers browserQueue isShuttingDown created].
  split.
  { rewrite map_get_app_other by congruence. apply map_get_app_last. exact HfreshA. }
  split.
  { apply map_get_app_last. apply map_get_app_fresh; [exact Hdistinct | exact HfreshB]. }
  unfold size. cbn [browsers]. rewrite !length_app. cbn [List.length]. lia.
Qed.

End Bounds.

(** *** Statistics *)

Lemma Math_max_ge (xs : list Z) (x : Z) :
  (x <= Math_max x xs)%Z /\ (forall y, In y xs -> (y <= Math_max x xs)%Z).
Proof.
  unfold Math_max. revert x. induction xs as [| a xs IH]; intros x; cbn.
  - split; [lia | intros y []].
  - destruct (IH (Z.max x a)) as [Hx Hxs]. split; [lia |].
    intros y [<- | Hy]; [lia | apply Hxs; exact Hy].
Qed.

Lemma Math_max_in (xs : list Z) (x : Z) : In (Math_max x xs) (x :: xs).
Proof.
  unfold Math_max. revert x. induction xs as [| a xs IH]; intros x; cbn.
  - left. reflexivity.
  - destruct (IH (Z.max x a)) as [Heq | Hin].
    + destruct (Z.max_spec x a) as [[_ Hm] | [_ Hm]]; rewrite Hm in *;
        [right; left | left]; exact Heq.
    + right. right. exact Hin.
Qed.

(** X11.  The snapshot of [getStats()]: the in-use count never exceeds
    the total; for an empty pool the average and the oldest-browser
    figure are 0 (no division by zero, no maximum of nothing); otherwise
    the oldest-browser figure is the age of some tracked browser and
    bounds the age of every tracked browser. *)
Theorem getStats_consistent (now : Z) (st : Pool) :
  statTotal (getStats now st) = size st
  /\ statInUse (getStats now st) <= statTotal (getStats now st)
  /\ (size st = 0 ->
      statAvgTasksPerBrowser (getStats now st) = 0%Q
      /\ statOldestBrowser (getStats now st) = 0%Z)
  /\ (0 < size st ->
      exists k w, In (k, w) (browsers st)
                  /\ statOldestBrowser (getStats now st) = (now - createdAt w)%Z)
  /\ (forall k w, In (k, w) (browsers st) ->
                  (now - createdAt w <= statOldestBrowser (getStats now st))%Z).
Proof.
  unfold getStats, size. cbn [statTotal statInUse statAvgTasksPerBrowser
                                statOldestBrowser statTasksCompleted].
  split; [reflexivity |]. split.
  { eapply Nat.le_trans; [apply List.filter_length_le |]. rewrite length_map. lia. }
  split.
  { intros Hempty. destruct (browsers st); [split; reflexivity | discriminate]. }
  split.
  { intros Hpos.
    destruct (browsers st) as [| [k w] m]; [cbn in Hpos; lia |].
    cbn [map snd].
    destruct (Math_max_in (map (fun w0 => (now - createdAt w0)%Z) (map snd m))
                          (now - createdAt w)%Z) as [Heq | Hin].
    - exists k, w. split; [left; reflexivity | symmetry; exact Heq].
    - apply in_map_iff in Hin. destruct Hin as [w' [Hage Hin]].
      apply in_map_iff in Hin. destruct Hin as [[k' w''] [Hsnd Hin]].
      cbn in Hsnd. subst w''. exists k', w'. split; [right; exact Hin |].
      symmetry. exact Hage. }
  intros k w Hin. destruct (browsers st) as [| [k0 w0] m]; [destruct Hin |].
  cbn [map snd].
  destruct (Math_max_ge (map (fun w1 => (now - createdAt w1)%Z) (map snd m))
                        (now - createdAt w0)%Z) as [Hhead Htail].
  destruct Hin as [Heq | Hin].
  - injection Heq as _ <-. exact Hhead.
  - apply Htail. apply in_map_iff. exists w. split; [reflexivity |].
    apply in_map_iff. exists (k, w). split; [reflexivity | exact Hin].
Qed.

(** *** The properties at work on small pools *)

Import Scenario.

Lemma overlapping_acquires_exceed_maxBrowsers_witness :
  isShuttingDown empty = false
  /\ availableBrowsers empty = []
  /\ S (size empty) = 1
  /\ uuids 0 <> uuids 1
  /\ exists s1 s2 s3 s4,
      acquireBrowser_start 1 "alice"%string 5 empty = (s1, Launching 0)
      /\ acquireBrowser_start 1 "bob"%string 5 s1 = (s2, Launching 1)
      /\ size s2 = 0
      /\ acquireBrowser_resume uuids launches 0 "alice"%string 7 s2 = (s3, Leased 0)
      /\ acquireBrowser_resume uuids launches 1 "bob"%string 8 s3 = (s4, Leased 1)
      /\ map_get (uuids 0) (browsers s4)
         = Some (mkWrapper (uuids 0) 0 (Some "alice"%string) 7 7 0 true)
      /\ map_get (uuids 1) (browsers s4)
         = Some (mkWrapper (uuids 1) 1 (Some "bob"%string) 8 8 0 true)
      /\ size s4 = 2.
Proof.
  assert (Hdistinct : uuids 0 <> uuids 1) by discriminate.
  split; [reflexivity |]. split; [reflexivity |]. split; [reflexivity |].
  split; [exact Hdistinct |].
  apply (proj2 (overlapping_acquires_exceed_maxBrowsers 1 uuids launches
                  "alice"%string "bob"%string 5 7 8 empty 0 1
                  eq_refl eq_refl eq_refl eq_refl eq_refl eq_refl eq_refl Hdistinct)).
Defined.

Lemma acquireBrowser_takes_first_available_witness :
  let st := fst (init 2 0 empty) in
  let w := mkWrapper (uuids 0) 0 None 0 0 0 false in
  availableBrowsers st = [uuids 0; uuids 1]
  /\ map_get (uuids 0) (browsers st) = Some w
  /\ exists st',
      acquire 2 "alice"%string 5 st = (st', Leased 0)
      /\ availableBrowsers st' = [uuids 1]
      /\ map_get (uuids 0) (browsers st')
         = Some (mkWrapper (uuids 0) 0 (Some "alice"%string) 0 5 0 true)
      /\ browserQueue st' = browserQueue st
      /\ created st' = created st
      /\ size st' = size st.
Proof.
  split; [reflexivity |]. split; [reflexivity |].
  apply (acquireBrowser_takes_first_available 2 uuids launches "alice"%string 5
           (fst (init 2 0 empty)) (uuids 0) [uuids 1]
           (mkWrapper (uuids 0) 0 None 0 0 0 false)); reflexivity.
Defined.

Lemma exhausted_pool_queues_then_resumes_in_order_witness :
  let st := fst (acquireMany 2 2 (fst (init 2 0 empty))) in
  availableBrowsers st = [] /\ size st = 2
  /\ exists st1 st2,
      acquire 2 "carol"%string 5 st = (st1, Suspended)
      /\ browserQueue st1 = browserQueue st ++ ["carol"%string]
      /\ browsers st1 = browsers st
      /\ release 2 0 9 st1
         = (st2, ReleaseDone (Some (hd "carol"%string (browserQueue st), 0)))
      /\ browserQueue st2 = tl (browserQueue st ++ ["carol"%string]).
Proof.
  split; [reflexivity |]. split; [reflexivity |].
  apply (exhausted_pool_queues_then_resumes_in_order 2 uuids launches "carol"%string 0 5 9
           (fst (acquireMany 2 2 (fst (init 2 0 empty))))
           (mkWrapper (uuids 0) 0 (Some "worker"%string) 0 1 0 true));
    try reflexivity; vm_compute; try lia; discriminate.
Defined.

Lemma release_then_acquire_same_browser_witness :
  let st := fst (acquire 1 "alice"%string 1 (fst (init 1 0 empty))) in
  let w := mkWrapper (uuids 0) 0 (Some "alice"%string) 0 1 0 true in
  findWrapperByBrowser 0 st = Some w
  /\ exists st1 st2,
      release 1 0 7 st = (st1, ReleaseDone None)
      /\ acquire 1 "bob"%string 8 st1 = (st2, Leased 0)
      /\ map_get (id w) (browsers st2)
         = Some (mkWrapper (id w) 0 (Some "bob"%string) (createdAt w) 8
                           (S (tasksCompleted w)) true)
      /\ availableBrowsers st2 = []
      /\ size st2 = size st.
Proof.
  split; [reflexivity |].
  apply (release_then_acquire_same_browser 1 uuids launches "bob"%string 0 7 8
           (fst (acquire 1 "alice"%string 1 (fst (init 1 0 empty))))
           (mkWrapper (uuids 0) 0 (Some "alice"%string) 0 1 0 true));
    try reflexivity; vm_compute; try lia; discriminate.
Defined.

Lemma closeBrowser_untracks_only_that_browser_witness :
  let st := fst (init 2 0 empty) in
  map_get (uuids 0) (browsers st) <> None
  /\ uuids 1 <> uuids 0
  /\ ~ In (uuids 0) (availableBrowsers (closeBrowser (uuids 0) st))
  /\ map_get (uuids 1) (browsers (closeBrowser (uuids 0) st))
     = map_get (uuids 1) (browsers st)
  /\ (In (uuids 1) (availableBrowsers (closeBrowser (uuids 0) st))
      <-> In (uuids 1) (availableBrowsers st)).
Proof.
  assert (Htracked : map_get (uuids 0) (browsers (fst (init 2 0 empty))) <> None)
    by (vm_compute; discriminate).
  assert (Hother : uuids 1 <> uuids 0) by (vm_compute; discriminate).
  destruct (closeBrowser_untracks_only_that_browser (uuids 0) (fst (init 2 0 empty)))
    as [_ [Havail [Hframe _]]].
  split; [exact Htracked |]. split; [exact Hother |].
  split; [exact (Havail Htracked) |]. exact (Hframe (uuids 1) Hother).
Defined.


Lemma initialize_creates_initial_browsers_witness :
  exists st,
    init 2 0 empty = (st, Ok tt)
    /\ browsers st
       = map (fun k => (uuids k, mkWrapper (uuids k) k None 0 0 0 false))
             (seq 0 (Nat.min 2 5))
    /\ availableBrowsers st = map uuids (seq 0 (Nat.min 2 5))
    /\ browserQueue st = []
    /\ size st = Nat.min 2 5
    /\ size st <= 2.
Proof.
  apply (initialize_creates_initial_browsers 2 uuids launches (fun k => k) 0).
  - intros k _. reflexivity.
  - intros j k Hj Hk Heq. cbn in Hj, Hk.
    destruct j as [| [| j]], k as [| [| k]]; try lia; try reflexivity;
      vm_compute in Heq; discriminate.
Defined.

Lemma initialize_failure_keeps_earlier_browsers_witness :
  let launch := fun n => if n <? 1 then Some n else None in
  1 < Nat.min 2 5
  /\ launch 1 = None
  /\ exists st,
      initialize 2 uuids launch 0 empty = (st, Err CreateFailed)
      /\ availableBrowsers st = map uuids (seq 0 1)
      /\ created st = 2.
Proof.
  split; [cbn; lia |]. split; [reflexivity |].
  apply (initialize_failure_keeps_earlier_browsers 2 uuids
           (fun n => if n <? 1 then Some n else None) (fun k => k) 0 1).
  - cbn. lia.
  - intros j Hj. destruct j as [| j]; [reflexivity | lia].
  - reflexivity.
Defined.

Lemma maintenance_healthy_pool_unchanged_witness :
  let st := fst (init 3 0 empty) in
  size st < 10
  /\ Nat.min 3 3 <= List.length (availableBrowsers st)
  /\ tick 3 10 30000 st = Some st.
Proof.
  split; [vm_compute; lia |]. split; [vm_compute; lia |].
  apply (maintenance_healthy_pool_unchanged 3 uuids launches probes 10 30000
           (fst (init 3 0 empty))).
  - intros k w _ _. reflexivity.
  - vm_compute. lia.
  - left. vm_compute. lia.
Defined.

Lemma maintenance_tops_up_to_watermark_witness :
  let st := fst (acquireMany 7 3 (fst (init 7 0 empty))) in
  List.length (availableBrowsers st) = 2 /\ size st = 5
  /\ exists st',
      tick 7 10 30000 st = Some st'
      /\ availableBrowsers st'
         = availableBrowsers st
             ++ map uuids (seq (created st)
                               (Nat.min 3 7 - List.length (availableBrowsers st)))
      /\ List.length (availableBrowsers st') = Nat.min 3 7
      /\ created st' = created st + (Nat.min 3 7 - List.length (availableBrowsers st))
      /\ browserQueue st' = browserQueue st.
Proof.
  split; [reflexivity |]. split; [reflexivity |].
  apply (maintenance_tops_up_to_watermark 7 uuids launches probes 10 30000
           (fst (acquireMany 7 3 (fst (init 7 0 empty))))).
  - intros k w _ _. reflexivity.
  - intros k. discriminate.
  - vm_compute. lia.
  - vm_compute. lia.
  - vm_compute. lia.
Defined.

Lemma getStats_consistent_witness :
  let st := fst (acquire 2 "alice"%string 1 (fst (init 2 0 empty))) in
  (size empty = 0
   /\ statAvgTasksPerBrowser (getStats 9 empty) = 0%Q
   /\ statOldestBrowser (getStats 9 empty) = 0%Z)
  /\ (0 < size st
      /\ statInUse (getStats 9 st) <= statTotal (getStats 9 st)
      /\ exists k w, In (k, w) (browsers st)
                     /\ statOldestBrowser (getStats 9 st) = (9 - createdAt w)%Z).
Proof.
  split.
  - split; [reflexivity |].
    exact (proj1 (proj2 (proj2 (getStats_consistent 9 empty))) eq_refl).
  - assert (Hpos : 0 < size (fst (acquire 2 "alice"%string 1 (fst (init 2 0 empty)))))
      by (vm_compute; lia).
    destruct (getStats_consistent 9 (fst (acquire 2 "alice"%string 1 (fst (init 2 0 empty)))))
      as [_ [Huse [_ [Havg _]]]].
    split; [exact Hpos |]. split; [exact Huse |]. exact (Havg Hpos).
Defined.

End PoolMore.

(* ================================================================== *)
(** ** Further properties of the task scheduler *)
(* ================================================================== *)

Module SchedulerMore.

Import TaskScheduler.

(** *** Choosing a profile *)

Lemma insert_sorted_In (p x : Profile) (l : list Profile) :
  In x (insert_sorted p l) <-> x = p \/ In x l.
Proof.
  induction l as [| q l IH]; cbn.
  - intuition congruence.
  - destruct (lastActive p <=? lastActive q)%Z; cbn.
    + intuition congruence.
    + rewrite IH. intuition congruence.
Qed.

Lemma sort_lastActive_In (x : Profile) (l : list Profile) :
  In x (sort_lastActive l) <-> In x l.
Proof.
  unfold sort_lastActive. induction l as [| p l IH]; cbn.
  - tauto.
  - rewrite insert_sorted_In, IH. intuition congruence.
Qed.

Lemma insert_sorted_head (p : Profile) (l : list Profile) :
  (forall h rest, l = h :: rest -> forall q, In q l -> (lastActive h <= lastActive q)%Z) ->
  exists h rest,
    insert_sorted p l = h :: rest
    /\ forall q, In q (insert_sorted p l) -> (lastActive h <= lastActive q)%Z.
Proof.
  intros Hmin. destruct l as [| h l]; cbn.
  - exists p, []. split; [reflexivity |]. intros q [<- | []]. lia.
  - specialize (Hmin h l eq_refl).
    destruct (Z.leb_spec (lastActive p) (lastActive h)) as [Hle | Hlt].
    + exists p, (h :: l). split; [reflexivity |].
      intros q [<- | Hq]; [lia |]. specialize (Hmin q Hq). lia.
    + exists h, (insert_sorted p l). split; [reflexivity |].
      intros q [<- | Hq]; [lia |].
      apply insert_sorted_In in Hq. destruct Hq as [-> | Hq]; [lia |].
      apply Hmin. right. exact Hq.
Qed.

Lemma sort_lastActive_head (l : list Profile) :
  forall h rest, sort_lastActive l = h :: rest ->
                 forall q, In q (sort_lastActive l) -> (lastActive h <= lastActive q)%Z.
Proof.
  unfold sort_lastActive. induction l as [| p l IH]; cbn [fold_right].
  - discriminate.
  - destruct (insert_sorted_head p (fold_right insert_sorted [] l) IH)
      as [h [rest [Heq Hmin]]].
    intros h' rest' Heq'. rewrite Heq in Heq'. injection Heq' as <- <-. exact Hmin.
Qed.

Section Selection.

Variable Config : Type.
Variable searchRegion : Config -> option string.

Local Abbreviation Task := (TaskScheduler.Task Config).
Local Abbreviation selectBestProfile := (@TaskScheduler.selectBestProfile Config searchRegion).

(** X19.  [selectBestProfile] returns one of the healthy profiles it was
    given; when the configuration names a search region, one of that
    region; and among those the least recently active.  It returns
    nothing exactly when no given profile is suitable. *)
Theorem selectBestProfile_least_recently_active (task : Task) (profiles : list Profile) :
  let suitable (q : Profile) : Prop :=
    In q profiles
    /\ forall r, searchRegion (config task) = Some r -> r <> ""%string -> region q = r in
  (forall p, selectBestProfile task profiles = Some p ->
             suitable p /\ forall q, suitable q -> (lastActive p <= lastActive q)%Z)
  /\ (selectBestProfile task profiles = None <-> forall q, ~ suitable q).
Proof.
  intros suitable. unfold suitable. clear suitable.
  unfold TaskScheduler.selectBestProfile.
  set (candidates :=
         match searchRegion (config task) with
         | Some r => if String.eqb r "" then profiles
                     else filter (fun p => String.eqb (region p) r) profiles
         | None => profiles
         end).
  assert (Hcand : forall q,
             In q candidates
             <-> In q profiles
                 /\ forall r, searchRegion (config task) = Some r -> r <> ""%string ->
                              region q = r).
  { intros q. unfold candidates. destruct (searchRegion (config task)) as [r |].
    - destruct (String.eqb_spec r "") as [Hempty | Hr].
      + split; [intros H; split; [exact H |] | intros [H _]; exact H].
        intros r' [= <-] Hne. contradiction.
      + rewrite filter_In. split.
        * intros [Hin Hreg]. split; [exact Hin |]. intros r' [= <-] _.
          apply String.eqb_eq. exact Hreg.
        * intros [Hin Hreg]. split; [exact Hin |]. apply String.eqb_eq.
          apply Hreg; [reflexivity | exact Hr].
    - split; [intros H; split; [exact H | discriminate] | intros [H _]; exact H]. }
  assert (Hhead : forall p, hd_error (sort_lastActive candidates) = Some p ->
             In p candidates /\ forall q, In q candidates -> (lastActive p <= lastActive q)%Z).
  { intros p Hp. destruct (sort_lastActive candidates) as [| h rest] eqn:Hsort;
      [discriminate |]. injection Hp as ->. split.
    - apply sort_lastActive_In. rewrite Hsort. left. reflexivity.
    - intros q Hq. apply (sort_lastActive_head candidates p rest Hsort).
      rewrite Hsort. rewrite <- Hsort. apply sort_lastActive_In. exact Hq. }
  assert (Hnone : hd_error (sort_lastActive candidates) = None <-> candidates = []).
  { split.
    - intros Hn. destruct candidates as [| c cs] eqn:Hc; [reflexivity |].
      destruct (sort_lastActive (c :: cs)) as [| h rest] eqn:Hsort; [| discriminate].
      assert (Hin : In c (sort_lastActive (c :: cs)))
        by (apply sort_lastActive_In; left; reflexivity).
      rewrite Hsort in Hin. destruct Hin.
    - intros ->. reflexivity. }
  split.
  - intros p. destruct profiles as [| p0 ps] eqn:Hprofiles; [discriminate |].
    intros Hp. destruct (Hhead p Hp) as [Hin Hmin]. split.
    + apply Hcand. exact Hin.
    + intros q Hq. apply Hmin. apply Hcand. exact Hq.
  - destruct profiles as [| p0 ps] eqn:Hprofiles.
    + split; [intros _ q [[] _] | reflexivity].
    + rewrite Hnone. split.
      * intros Hempty q Hq. apply Hcand in Hq. rewrite Hempty in Hq. destruct Hq.
      * intros Hno. destruct candidates as [| c cs] eqn:Hc; [reflexivity |].
        exfalso. apply (Hno c). apply Hcand. left. reflexivity.
Qed.

End Selection.

Section More.

Variable Config : Type.
Variable joiValidate : Schema -> Config -> result string Config.
Variable searchRegion : Config -> option string.
Variable TASK_RETRY_ATTEMPTS : nat.
Variable jobIdOf : nat -> string.
Variable random : nat -> Q.

Local Abbreviation Task := (TaskScheduler.Task Config).
Local Abbreviation Job := (TaskScheduler.Job Config).
Local Abbreviation Scheduler := (TaskScheduler.Scheduler Config).
Local Abbreviation Op := (TaskScheduler.Op Config).
Local Abbreviation scheduleTask :=
  (@TaskScheduler.scheduleTask Config TASK_RETRY_ATTEMPTS jobIdOf random).
Local Abbreviation validateTaskConfig := (@TaskScheduler.validateTaskConfig Config joiValidate).
Local Abbreviation selectBestProfile := (@TaskScheduler.selectBestProfile Config searchRegion).
Local Abbreviation createTask :=
  (@TaskScheduler.createTask Config joiValidate searchRegion TASK_RETRY_ATTEMPTS jobIdOf random).
Local Abbreviation bulkCreateTasks :=
  (@TaskScheduler.bulkCreateTasks Config joiValidate searchRegion TASK_RETRY_ATTEMPTS
                                  jobIdOf random).
Local Abbreviation retryTask := (@TaskScheduler.retryTask Config TASK_RETRY_ATTEMPTS jobIdOf random).
Local Abbreviation processTask := (@TaskScheduler.processTask Config TASK_RETRY_ATTEMPTS).
Local Abbreviation loadPendingTasks :=
  (@TaskScheduler.loadPendingTasks Config TASK_RETRY_ATTEMPTS jobIdOf random).
Local Abbreviation scheduledTaskProcessor :=
  (@TaskScheduler.scheduledTaskProcessor Config TASK_RETRY_ATTEMPTS jobIdOf random).
Local Abbreviation step :=
  (@TaskScheduler.step Config joiValidate searchRegion TASK_RETRY_ATTEMPTS jobIdOf random).
Local Abbreviation run :=
  (@TaskScheduler.run Config joiValidate searchRegion TASK_RETRY_ATTEMPTS jobIdOf random).

(** *** What a successful [createTask] did *)

Lemma createTask_ok (taskData : TaskData Config) (uuid : string) (profiles : list Profile)
      (now : Z) (st st' : Scheduler) (task : Task) :
  createTask taskData uuid profiles now st = (st', Ok task) ->
  st' = scheduleTask task now (insertOne task st)
  /\ id task = String.append "task-" uuid
  /\ status task = PENDING
  /\ attempts task = 0.
Proof.
  unfold TaskScheduler.createTask.
  destruct (validateTaskConfig (dType taskData) (dConfig taskData)) as [cfg | e];
    [| discriminate].
  destruct (needsProfile (newTask taskData cfg uuid now)).
  - destruct (selectBestProfile (newTask taskData cfg uuid now) profiles) as [p |];
      [| discriminate].
    intros [= <- <-]. repeat split; reflexivity.
  - intros [= <- <-]. repeat split; reflexivity.
Qed.

Lemma createTask_err (taskData : TaskData Config) (uuid : string) (profiles : list Profile)
      (now : Z) (st st' : Scheduler) (e : SchedulerError) :
  createTask taskData uuid profiles now st = (st', Err e) -> st' = st.
Proof.
  unfold TaskScheduler.createTask.
  destruct (validateTaskConfig (dType taskData) (dConfig taskData)) as [cfg | e'].
  - destruct (needsProfile (newTask taskData cfg uuid now)).
    + destruct (selectBestProfile (newTask taskData cfg uuid now) profiles) as [p |];
        [discriminate |]. intros [= <- _]. reflexivity.
    + discriminate.
  - intros [= <- _]. reflexivity.
Qed.

Lemma find_app_fresh (taskId : string) (l : list Task) (t : Task) :
  find (fun t0 => String.eqb (id t0) taskId) (l ++ [t])
  = match find (fun t0 => String.eqb (id t0) taskId) l with
    | Some t0 => Some t0
    | None => if String.eqb (id t) taskId then Some t else None
    end.
Proof.
  induction l as [| a l IH]; cbn.
  - reflexivity.
  - destruct (String.eqb (id a) taskId); [reflexivity | exact IH].
Qed.

Lemma find_fresh (taskId : string) (l : list Task) :
  (forall t, In t l -> id t <> taskId) ->
  find (fun t0 => String.eqb (id t0) taskId) l = None.
Proof.
  intros Hfresh. induction l as [| a l IH]; cbn.
  - reflexivity.
  - destruct (String.eqb_spec (id a) taskId) as [Heq | _].
    + exfalso. apply (Hfresh a); [left; reflexivity | exact Heq].
    + apply IH. intros t Hin. apply Hfresh. right. exact Hin.
Qed.

(** X12.  The four task types without an entry in [taskConfigSchema]
    (video_watch, news_reading, shopping, social_activity) can never be
    submitted: [createTask] fails with 'Unknown task type' whatever the
    configuration, and stores and queues nothing. *)
Theorem createTask_rejects_types_without_schema
        (taskData : TaskData Config) (uuid : string) (profiles : list Profile)
        (now : Z) (st : Scheduler) :
  In (dType taskData) [VIDEO_WATCH; NEWS_READING; SHOPPING; SOCIAL_ACTIVITY] ->
  createTask taskData uuid profiles now st = (st, Err (UnknownTaskType (dType taskData))).
Proof.
  intros Htype. unfold TaskScheduler.createTask, TaskScheduler.validateTaskConfig.
  destruct Htype as [<- | [<- | [<- | [<- | []]]]]; reflexivity.
Qed.

(** X13.  Submit then look up: when no stored Job has the id
    'task-' + uuid, the Job returned by a successful [createTask] is the
    one [findOne] finds under its id, and the lookup of every other id
    is as before. *)
Theorem createTask_then_findOne
        (taskData : TaskData Config) (uuid : string) (profiles : list Profile)
        (now : Z) (st st' : Scheduler) (task : Task) :
  (forall t, In t (tasks st) -> id t <> String.append "task-" uuid) ->
  createTask taskData uuid profiles now st = (st', Ok task) ->
  findOne (id task) st' = Some task
  /\ (forall other, other <> id task -> findOne other st' = findOne other st).
Proof.
  intros Hfresh Hcreate.
  destruct (createTask_ok _ _ _ _ _ _ _ Hcreate) as [-> [Hid _]].
  unfold findOne.
  rewrite (SchedulerFacts.scheduleTask_tasks Config TASK_RETRY_ATTEMPTS jobIdOf random).
  cbn [tasks insertOne]. split.
  - rewrite find_app_fresh, find_fresh, String.eqb_refl; [reflexivity |].
    rewrite Hid. exact Hfresh.
  - intros other Hother. rewrite find_app_fresh.
    destruct (find (fun t0 => String.eqb (id t0) other) (tasks st)); [reflexivity |].
    destruct (String.eqb_spec (id task) other); [congruence | reflexivity].
Qed.

(** *** Writes touch one Job *)

Lemma find_update_first_other (taskId other : string) (f : Task -> Task) (l : list Task) :
  other <> taskId ->
  (forall t, id (f t) = id t) ->
  find (fun t => String.eqb (id t) other) (update_first taskId f l)
  = find (fun t => String.eqb (id t) other) l.
Proof.
  intros Hother Hid. induction l as [| a l IH]; cbn.
  - reflexivity.
  - destruct (String.eqb_spec (id a) taskId) as [Ha | Ha]; cbn.
    + rewrite Hid. destruct (String.eqb_spec (id a) other); [congruence | reflexivity].
    + destruct (String.eqb (id a) other); [reflexivity | exact IH].
Qed.

Lemma findOne_updateOne_other (taskId other : string) (f : Task -> Task) (st : Scheduler) :
  other <> taskId ->
  (forall t, id (f t) = id t) ->
  findOne other (updateOne taskId f st) = findOne other st.
Proof.
  intros Hother Hid. unfold findOne, updateOne. cbn [tasks].
  apply find_update_first_other; assumption.
Qed.

(** X14.  [cancelTask], [retryTask] and [processTask] write to the Job
    they are given and to no other: the stored record of every other id
    is the same after the call. *)
Theorem operations_leave_other_tasks_alone
        (taskId other : string) (job : Job) (r : Execution) (now : Z) (clock : Clock)
        (st : Scheduler) :
  (other <> taskId ->
   findOne other (cancelTask taskId st) = findOne other st
   /\ findOne other (fst (retryTask taskId now st)) = findOne other st)
  /\ (other <> id (data job) ->
      findOne other (fst (processTask job r clock st)) = findOne other st).
Proof.
  split.
  - intros Hother. split.
    + unfold cancelTask.
      assert (H : findOne other (updateOne taskId (set_status CANCELLED) st)
                  = findOne other st)
        by (apply findOne_updateOne_other; [exact Hother | reflexivity]).
      destruct (getJob taskId (updateOne taskId (set_status CANCELLED) st)); exact H.
    + unfold TaskScheduler.retryTask.
      destruct (findOne taskId st) as [found |]; [| reflexivity].
      destruct (negb (status_eqb (status found) FAILED)); [reflexivity |].
      cbn [fst]. unfold findOne at 1.
      rewrite (SchedulerFacts.scheduleTask_tasks Config TASK_RETRY_ATTEMPTS jobIdOf random).
      apply find_update_first_other; [exact Hother | reflexivity].
  - intros Hother. unfold TaskScheduler.processTask, updateTaskResult, updateTaskStatus.
    destruct r as [r | message | r message]; cbn [fst].
    + rewrite !findOne_updateOne_other; try assumption; reflexivity.
    + destruct (Z.of_nat (attemptsMade job) >=? Z.of_nat TASK_RETRY_ATTEMPTS - 1)%Z;
        rewrite !findOne_updateOne_other; try assumption; reflexivity.
    + destruct (Z.of_nat (attemptsMade job) >=? Z.of_nat TASK_RETRY_ATTEMPTS - 1)%Z;
        rewrite !findOne_updateOne_other; try assumption; reflexivity.
Qed.

(** *** What an execution records *)

(** X15.  [processTask] on a stored Job records the outcome.  When the
    executor returns and the bookkeeping after it goes through, the Job
    becomes COMPLETED or FAILED by the result's success flag, with the
    result (its duration set to the time from entry to the executor's
    return), the time of the RUNNING write as start and the time of the
    result's write as completion.  When the error is thrown before a
    result is stored: at the last attempt the Job becomes FAILED with the
    error message; at an earlier attempt the stored Job stays RUNNING
    with no error recorded.  When the bookkeeping throws once the result
    is stored: at the last attempt the Job becomes FAILED with that
    message, also over a successful result, which stays stored; at an
    earlier attempt the stored Job keeps the status of the result.  In
    the last four cases the promise is rejected.  The queue is never
    touched. *)
Theorem processTask_records_outcome
        (job : Job) (clock : Clock) (st : Scheduler) (t : Task) :
  findOne (id (data job)) st = Some t ->
  (forall r,
      exists st' t' result,
        processTask job (Returned r) clock st = (st', Ok result)
        /\ success result = success r /\ resultError result = resultError r
        /\ duration result = (finishTime clock - startTime clock)%Z
        /\ findOne (id (data job)) st' = Some t'
        /\ status t' = (if success r then COMPLETED else FAILED)
        /\ taskResult t' = Some result
        /\ startedAt t' = Some (runningAt clock)
        /\ completedAt t' = Some (storedAt clock)
        /\ error t' = error t
        /\ queue st' = queue st)
  /\ (forall message,
      (Z.of_nat TASK_RETRY_ATTEMPTS - 1 <= Z.of_nat (attemptsMade job))%Z ->
      exists st' t',
        processTask job (Threw message) clock st = (st', Err message)
        /\ findOne (id (data job)) st' = Some t'
        /\ status t' = FAILED
        /\ error t' = Some message
        /\ startedAt t' = Some (runningAt clock)
        /\ completedAt t' = Some (failedAt clock)
        /\ taskResult t' = taskResult t
        /\ queue st' = queue st)
  /\ (forall message,
      (Z.of_nat (attemptsMade job) < Z.of_nat TASK_RETRY_ATTEMPTS - 1)%Z ->
      exists st' t',
        processTask job (Threw message) clock st = (st', Err message)
        /\ findOne (id (data job)) st' = Some t'
        /\ status t' = RUNNING
        /\ startedAt t' = Some (runningAt clock)
        /\ error t' = error t /\ completedAt t' = completedAt t
        /\ taskResult t' = taskResult t
        /\ queue st' = queue st)
  /\ (forall r message,
      (Z.of_nat TASK_RETRY_ATTEMPTS - 1 <= Z.of_nat (attemptsMade job))%Z ->
      exists st' t' result,
        processTask job (ThrewAfterStore r message) clock st = (st', Err message)
        /\ findOne (id (data job)) st' = Some t'
        /\ status t' = FAILED
        /\ error t' = Some message
        /\ taskResult t' = Some result
        /\ success result = success r /\ resultError result = resultError r
        /\ duration result = (finishTime clock - startTime clock)%Z
        /\ startedAt t' = Some (runningAt clock)
        /\ completedAt t' = Some (failedAt clock)
        /\ queue st' = queue st)
  /\ (forall r message,
      (Z.of_nat (attemptsMade job) < Z.of_nat TASK_RETRY_ATTEMPTS - 1)%Z ->
      exists st' t' result,
        processTask job (ThrewAfterStore r message) clock st = (st', Err message)
        /\ findOne (id (data job)) st' = Some t'
        /\ status t' = (if success r then COMPLETED else FAILED)
        /\ error t' = error t
        /\ taskResult t' = Some result
        /\ success result = success r /\ resultError result = resultError r
        /\ duration result = (finishTime clock - startTime clock)%Z
        /\ startedAt t' = Some (runningAt clock)
        /\ completedAt t' = Some (storedAt clock)
        /\ queue st' = queue st).
Proof.
  intros Hfind. unfold TaskScheduler.processTask, updateTaskResult, updateTaskStatus.
  split; [| split; [| split; [| split]]].
  - intros r. do 3 eexists. split; [reflexivity |].
    rewrite !SchedulerFacts.findOne_updateOne, Hfind by reflexivity.
    cbn. repeat (split; [reflexivity |]). reflexivity.
  - intros message Hlast.
    destruct (Z.geb_spec (Z.of_nat (attemptsMade job)) (Z.of_nat TASK_RETRY_ATTEMPTS - 1))
      as [_ | Hlt]; [| lia].
    do 2 eexists. split; [reflexivity |].
    rewrite !SchedulerFacts.findOne_updateOne, Hfind by reflexivity.
    cbn. repeat (split; [reflexivity |]). reflexivity.
  - intros message Hearly.
    destruct (Z.geb_spec (Z.of_nat (attemptsMade job)) (Z.of_nat TASK_RETRY_ATTEMPTS - 1))
      as [Hge | _]; [lia |].
    do 2 eexists. split; [reflexivity |].
    rewrite !SchedulerFacts.findOne_updateOne, Hfind by reflexivity.
    cbn. repeat (split; [reflexivity |]). reflexivity.
  - intros r message Hlast.
    destruct (Z.geb_spec (Z.of_nat (attemptsMade job)) (Z.of_nat TASK_RETRY_ATTEMPTS - 1))
      as [_ | Hlt]; [| lia].
    do 3 eexists. split; [reflexivity |].
    rewrite !SchedulerFacts.findOne_updateOne, Hfind by reflexivity.
    cbn. repeat (split; [reflexivity |]). reflexivity.
  - intros r message Hearly.
    destruct (Z.geb_spec (Z.of_nat (attemptsMade job)) (Z.of_nat TASK_RETRY_ATTEMPTS - 1))
      as [Hge | _]; [lia |].
    do 3 eexists. split; [reflexivity |].
    rewrite !SchedulerFacts.findOne_updateOne, Hfind by reflexivity.
    cbn. repeat (split; [reflexivity |]). reflexivity.
Qed.

(** *** Timers *)

Lemma scheduleTasks_queue (l : list Task) (now : Z) (st : Scheduler) :
  map (@data Config) (queue (fold_left (fun s t => scheduleTask t now s) l st))
  = map (@data Config) (queue st) ++ l.
Proof.
  revert st. induction l as [| t l IH]; intros st; cbn [fold_left].
  - rewrite app_nil_r. reflexivity.
  - rewrite IH.
    destruct (SchedulerFacts.scheduleTask_queue Config TASK_RETRY_ATTEMPTS jobIdOf random
                t now st) as [job [Hq [Hdata _]]].
    rewrite Hq, map_app. cbn [map]. rewrite Hdata, <- app_assoc. reflexivity.
Qed.

(** X16.  [loadPendingTasks()] adds one job to the queue for every stored
    Job whose status is PENDING or SCHEDULED, in store order, and writes
    nothing to the store.  It does not look at what is already queued: a
    Job that is still queued is queued again. *)
Theorem loadPendingTasks_admits_pending (now : Z) (st : Scheduler) :
  tasks (loadPendingTasks now st) = tasks st
  /\ map (@data Config) (queue (loadPendingTasks now st))
     = map (@data Config) (queue st)
         ++ filter (fun t => status_eqb (status t) PENDING
                             || status_eqb (status t) SCHEDULED) (tasks st)
  /\ List.length (queue (loadPendingTasks now st))
     = List.length (queue st)
       + List.length (filter (fun t => status_eqb (status t) PENDING
                                       || status_eqb (status t) SCHEDULED) (tasks st)).
Proof.
  unfold TaskScheduler.loadPendingTasks.
  split; [apply SchedulerFacts.scheduleTasks_tasks |].
  pose proof (scheduleTasks_queue
                (filter (fun t => status_eqb (status t) PENDING
                                  || status_eqb (status t) SCHEDULED) (tasks st)) now st)
    as Hq.
  split; [exact Hq |].
  apply (f_equal (@List.length Task)) in Hq.
  rewrite length_app, !length_map in Hq. exact Hq.
Qed.

(** X17.  The scheduled-task processor admits the due SCHEDULED Jobs but
    leaves their stored status SCHEDULED, so the next tick admits them
    again: two ticks at times [now <= now'] queue every Job due at [now]
    twice. *)
Theorem scheduledTaskProcessor_readmits_each_tick (now now' : Z) (st : Scheduler) :
  (now <= now')%Z ->
  tasks (scheduledTaskProcessor now st) = tasks st
  /\ map (@data Config) (queue (scheduledTaskProcessor now st))
     = map (@data Config) (queue st) ++ dueScheduledTasks now st
  /\ map (@data Config)
         (queue (scheduledTaskProcessor now' (scheduledTaskProcessor now st)))
     = map (@data Config) (queue st)
         ++ dueScheduledTasks now st ++ dueScheduledTasks now' st
  /\ (forall t, In t (dueScheduledTasks now st) -> In t (dueScheduledTasks now' st)).
Proof.
  intros Hle. unfold TaskScheduler.scheduledTaskProcessor.
  assert (Htasks : forall n s,
             tasks (fold_left (fun s0 t => scheduleTask t n s0) (dueScheduledTasks n s) s)
             = tasks s)
    by (intros n s; apply SchedulerFacts.scheduleTasks_tasks).
  split; [apply Htasks |]. split; [apply scheduleTasks_queue |]. split.
  - rewrite scheduleTasks_queue, scheduleTasks_queue, <- app_assoc.
    unfold dueScheduledTasks at 2. rewrite Htasks. reflexivity.
  - intros t. unfold dueScheduledTasks. rewrite !filter_In.
    intros [Hin Hdue]. split; [exact Hin |].
    apply andb_true_iff in Hdue. destruct Hdue as [Hs Hd]. rewrite Hs. cbn [andb].
    destruct (schedule t); try discriminate.
    apply Z.leb_le in Hd. apply Z.leb_le. lia.
Qed.

(** *** Cancelling and the queue *)

Lemma prefix_discriminates (a b : string) :
  String.prefix "task-" a = true -> String.prefix "task-" b = false -> a <> b.
Proof.
  intros Ha Hb Heq. rewrite Heq in Ha. congruence.
Qed.

Lemma scheduleTask_jobIds (task : Task) (now : Z) (st : Scheduler) :
  Forall (fun j => exists n, jobId j = jobIdOf n) (queue st) ->
  Forall (fun j => exists n, jobId j = jobIdOf n) (queue (scheduleTask task now st)).
Proof.
  intros Hq.
  destruct (SchedulerFacts.scheduleTask_queue Config TASK_RETRY_ATTEMPTS jobIdOf random
              task now st) as [job [Hqueue [_ [Hid _]]]].
  rewrite Hqueue. apply Forall_app. split; [exact Hq |].
  constructor; [| constructor]. exists (added st). exact Hid.
Qed.

Lemma scheduleTasks_jobIds (l : list Task) (now : Z) (st : Scheduler) :
  Forall (fun j => exists n, jobId j = jobIdOf n) (queue st) ->
  Forall (fun j => exists n, jobId j = jobIdOf n)
         (queue (fold_left (fun s t => scheduleTask t now s) l st)).
Proof.
  revert st. induction l as [| t l IH]; intros st Hq; cbn [fold_left].
  - exact Hq.
  - apply IH. apply scheduleTask_jobIds. exact Hq.
Qed.

Lemma Forall_filter_keep (A : Type) (P : A -> Prop) (f : A -> bool) (l : list A) :
  Forall P l -> Forall P (filter f l).
Proof.
  intros Hl. apply Forall_forall. intros x Hx. apply filter_In in Hx.
  rewrite Forall_forall in Hl. apply Hl. tauto.
Qed.

Lemma step_jobIds (st : Scheduler) (op : Op) :
  Forall (fun j => exists n, jobId j = jobIdOf n) (queue st) ->
  Forall (fun j => exists n, jobId j = jobIdOf n) (queue (step st op)).
Proof.
  intros Hq. destruct op as [taskData uuid profiles now | taskId | taskId now
                            | job r clock | taskId now | taskId message now
                            | taskId r now | now | now]; cbn [TaskScheduler.step].
  - destruct (createTask taskData uuid profiles now st) as [st' [task | e]] eqn:Hcreate.
    + destruct (createTask_ok _ _ _ _ _ _ _ Hcreate) as [-> _].
      cbn [fst]. apply scheduleTask_jobIds. exact Hq.
    + rewrite (createTask_err _ _ _ _ _ _ _ Hcreate). exact Hq.
  - unfold cancelTask.
    destruct (getJob taskId (updateOne taskId (set_status CANCELLED) st));
      cbn [queue remove updateOne]; [apply Forall_filter_keep |]; exact Hq.
  - unfold TaskScheduler.retryTask.
    destruct (findOne taskId st) as [found |]; [| exact Hq].
    destruct (negb (status_eqb (status found) FAILED)); [exact Hq |].
    cbn [fst]. apply scheduleTask_jobIds. exact Hq.
  - unfold TaskScheduler.processTask, updateTaskResult, updateTaskStatus.
    destruct r as [r | message | r message]; cbn [fst]; [exact Hq | |];
      destruct (Z.of_nat (attemptsMade job) >=? Z.of_nat TASK_RETRY_ATTEMPTS - 1)%Z;
      exact Hq.
  - exact Hq.
  - exact Hq.
  - exact Hq.
  - apply scheduleTasks_jobIds. exact Hq.
  - apply scheduleTasks_jobIds. exact Hq.
Qed.

Lemma run_jobIds (ops : list Op) (st : Scheduler) :
  Forall (fun j => exists n, jobId j = jobIdOf n) (queue st) ->
  Forall (fun j => exists n, jobId j = jobIdOf n) (queue (run ops st)).
Proof.
  revert st. induction ops as [| op ops IH]; intros st Hq; cbn.
  - exact Hq.
  - apply IH. apply step_jobIds. exact Hq.
Qed.

(** X18.  [cancelTask] looks its job up in the queue under the task id,
    but jobs are queued under the ids the queue assigns.  When none of
    those ids starts with 'task-', then in every state the scheduler
    reaches from the empty one, [cancelTask] of a task id finds no job
    and removes nothing: a cancelled Job that was queued stays queued. *)
Theorem cancelTask_never_dequeues (ops : list Op) (taskId : string) :
  (forall n, String.prefix "task-" (jobIdOf n) = false) ->
  String.prefix "task-" taskId = true ->
  getJob taskId (run ops (init Config)) = None
  /\ queue (cancelTask taskId (run ops (init Config))) = queue (run ops (init Config)).
Proof.
  intros Hids Htask.
  assert (Hq : Forall (fun j : Job => exists n, jobId j = jobIdOf n)
                      (queue (run ops (init Config))))
    by (apply run_jobIds; constructor).
  assert (Hnone : find (fun j : Job => String.eqb (jobId j) taskId)
                       (queue (run ops (init Config))) = None).
  { induction Hq as [| j q [n Hj] Hq IH]; cbn.
    - reflexivity.
    - destruct (String.eqb_spec (jobId j) taskId) as [Heq | _]; [| exact IH].
      exfalso. apply (prefix_discriminates taskId (jobIdOf n) Htask (Hids n)).
      congruence. }
  split; [exact Hnone |].
  unfold cancelTask.
  assert (Hget : getJob taskId
                   (updateOne taskId (set_status CANCELLED) (run ops (init Config))) = None)
    by exact Hnone.
  rewrite Hget. reflexivity.
Qed.

(** *** Bulk submission *)


(** *** The distributed delay *)

(** X21.  The delay of a distributed-window Job is never negative,
    whatever the window and the clock; with [start <= end], the three
    times below [2 ^ 52] in magnitude and [Math.random()] in [0, 1), it
    is at most max(0, end - now), and it is 0 when the window has already
    ended. *)
Theorem distributed_delay_bounds
        (task : Task) (now : Z) (st : Scheduler) (windowStart windowEnd : Z) :
  schedule task = distributed windowStart windowEnd ->
  exists (job : Job) (d : Q),
    queue (scheduleTask task now st) = queue st ++ [job]
    /\ delay (opts job) = Some d
    /\ (0 <= d)%Q
    /\ ((windowStart <= windowEnd)%Z ->
        (Z.abs windowStart < 2 ^ 52)%Z -> (Z.abs windowEnd < 2 ^ 52)%Z ->
        (Z.abs now < 2 ^ 52)%Z ->
        (0 <= random (draws st))%Q -> (random (draws st) < 1)%Q ->
        (d <= Qmax 0 (inject_Z windowEnd - inject_Z now))%Q)
    /\ ((windowEnd <= now)%Z -> (windowStart <= windowEnd)%Z ->
        (Z.abs windowStart < 2 ^ 52)%Z -> (Z.abs windowEnd < 2 ^ 52)%Z ->
        (Z.abs now < 2 ^ 52)%Z ->
        (0 <= random (draws st))%Q -> (random (draws st) < 1)%Q ->
        (d == 0)%Q).
Proof.
  intros Hs. unfold TaskScheduler.scheduleTask. rewrite Hs. cbn.
  do 2 eexists. split; [reflexivity |]. split; [reflexivity |].
  split; [apply Q.le_max_l |].
  assert (Hbound : (windowStart <= windowEnd)%Z ->
                   (Z.abs windowStart < 2 ^ 52)%Z -> (Z.abs windowEnd < 2 ^ 52)%Z ->
                   (Z.abs now < 2 ^ 52)%Z ->
                   (0 <= random (draws st))%Q -> (random (draws st) < 1)%Q ->
                   (binary64
                      (binary64 (inject_Z windowStart
                                 + binary64 (random (draws st)
                                             * binary64 (inject_Z windowEnd
                                                         - inject_Z windowStart)))
                       - inject_Z now)
                    <= inject_Z windowEnd - inject_Z now)%Q).
  { intros Hle Ha Hb Hn Hu0 Hu1.
    destruct (SchedulerFacts.distributed_sample _ windowStart windowEnd Hu0 Hu1 Hle Ha Hb)
      as [Hlo Hhi].
    apply (SchedulerFacts.distributed_wait _ windowStart windowEnd now Hlo Hhi Ha Hb Hn). }
  split.
  - intros Hle Ha Hb Hn Hu0 Hu1. specialize (Hbound Hle Ha Hb Hn Hu0 Hu1).
    apply Q.max_le_compat_l. exact Hbound.
  - intros Hpast Hle Ha Hb Hn Hu0 Hu1. specialize (Hbound Hle Ha Hb Hn Hu0 Hu1).
    assert (Hen : (inject_Z windowEnd <= inject_Z now)%Q)
      by (rewrite <- Zle_Qle; exact Hpast).
    apply Q.max_l. lra.
Qed.

End More.

(** *** Goals of a target visit *)

Lemma prefix_iff (sub s : string) :
  String.prefix sub s = true <-> exists post, s = String.append sub post.
Proof.
  revert s. induction sub as [| a sub IH]; intros s.
  - split; [intros _; exists s; reflexivity | intros _; destruct s; reflexivity].
  - destruct s as [| b s]; cbn.
    + split; [discriminate | intros [post Hpost]; discriminate].
    + destruct (ascii_dec a b) as [<- | Hab].
      * rewrite IH. split; intros [post Hpost]; exists post; congruence.
      * split; [discriminate | intros [post Hpost]; congruence].
Qed.

Lemma includes_iff (s sub : string) :
  includes s sub = true
  <-> exists pre post, s = String.append pre (String.append sub post).
Proof.
  split.
  - induction s as [| c s IH]; cbn [includes]; intros H; apply orb_true_iff in H.
    + destruct H as [H | H]; [| discriminate].
      apply prefix_iff in H. destruct H as [post Hpost].
      exists EmptyString, post. exact Hpost.
    + destruct H as [H | H].
      * apply prefix_iff in H. destruct H as [post Hpost].
        exists EmptyString, post. exact Hpost.
      * destruct (IH H) as [pre [post Hs]].
        exists (String c pre), post. cbn. rewrite Hs. reflexivity.
  - intros [pre [post Hs]]. revert s Hs. induction pre as [| c pre IH]; intros s Hs.
    + cbn in Hs.
      assert (Hp : String.prefix sub s = true) by (apply prefix_iff; exists post; exact Hs).
      destruct s; cbn [includes]; rewrite Hp; reflexivity.
    + cbn in Hs. subst s. cbn [includes]. rewrite (IH _ eq_refl). apply orb_true_r.
Qed.

(** X22.  [checkGoals] reports a goal as achieved exactly when it is
    optional, or of type duration or depth, or of type pageview with its
    value occurring in the page URL; the achieved goals come in the order
    given.  So a required goal of type event or conversion is never
    achieved, whatever the page. *)
Theorem checkGoals_achieved (url : string) (goals : list Goal) :
  (forall g,
      In g (checkGoals url goals)
      <-> In g goals
          /\ (goalRequired g = false
              \/ goalType g = "duration"%string
              \/ goalType g = "depth"%string
              \/ (goalType g = "pageview"%string
                  /\ exists pre post,
                      url = String.append pre (String.append (goalValue g) post))))
  /\ (forall g,
      goalRequired g = true ->
      goalType g = "event"%string \/ goalType g = "conversion"%string ->
      ~ In g (checkGoals url goals))
  /\ (forall more, checkGoals url (goals ++ more)
                   = checkGoals url goals ++ checkGoals url more).
Proof.
  assert (Hiff : forall g,
             In g (checkGoals url goals)
             <-> In g goals
                 /\ (goalRequired g = false
                     \/ goalType g = "duration"%string
                     \/ goalType g = "depth"%string
                     \/ (goalType g = "pageview"%string
                         /\ exists pre post,
                             url = String.append pre (String.append (goalValue g) post)))).
  { intros g. unfold checkGoals. rewrite filter_In.
    split; intros [Hin Hkeep]; (split; [exact Hin |]).
    - destruct (goalRequired g); [| left; reflexivity]. right.
      rewrite orb_false_r in Hkeep.
      destruct (String.eqb_spec (goalType g) "pageview") as [Hp | _].
      + right. right. split; [exact Hp |]. apply includes_iff. exact Hkeep.
      + destruct (String.eqb_spec (goalType g) "duration") as [Hd | _]; [left; exact Hd |].
        destruct (String.eqb_spec (goalType g) "depth") as [Hd | _];
          [right; left; exact Hd | discriminate].
    - destruct Hkeep as [Hopt | [Hd | [Hd | [Hp [pre [post Hurl]]]]]].
      + rewrite Hopt. apply orb_true_r.
      + rewrite Hd. reflexivity.
      + rewrite Hd. reflexivity.
      + rewrite Hp. cbn.
        assert (Hinc : includes url (goalValue g) = true)
          by (apply includes_iff; exists pre, post; exact Hurl).
        rewrite Hinc. reflexivity. }
  split; [exact Hiff |]. split.
  - intros g Hreq Htype Hin. apply Hiff in Hin. destruct Hin as [_ Hkeep].
    destruct Hkeep as [Hopt | [Hd | [Hd | [Hp _]]]];
      destruct Htype as [Ht | Ht]; congruence.
  - intros more. unfold checkGoals. apply filter_app.
Qed.

(** *** The properties at work on small stores *)

Import SchedulerScenario.

Lemma createTask_rejects_types_without_schema_witness :
  In (dType (mkTaskData SHOPPING tt None None None))
     [VIDEO_WATCH; NEWS_READING; SHOPPING; SOCIAL_ACTIVITY]
  /\ create (mkTaskData SHOPPING tt None None None) "u1"%string [] 0 submitted
     = (submitted, Err (UnknownTaskType SHOPPING)).
Proof.
  assert (Hin : In (dType (mkTaskData SHOPPING tt None None None))
                   [VIDEO_WATCH; NEWS_READING; SHOPPING; SOCIAL_ACTIVITY])
    by (right; right; left; reflexivity).
  split; [exact Hin |].
  exact (createTask_rejects_types_without_schema Config accept noRegion 3 jobIds half
           (mkTaskData SHOPPING tt None None None) "u1"%string [] 0 submitted Hin).
Defined.

Lemma createTask_then_findOne_witness :
  let st' := fst (create warmupNow "u2"%string [] 5 submitted) in
  let task := newTask warmupNow tt "u2"%string 5 in
  create warmupNow "u2"%string [] 5 submitted = (st', Ok task)
  /\ findOne (id task) st' = Some task
  /\ findOne "task-u1"%string st' = findOne "task-u1"%string submitted.
Proof.
  assert (Hcreate : create warmupNow "u2"%string [] 5 submitted
                    = (fst (create warmupNow "u2"%string [] 5 submitted),
                       Ok (newTask warmupNow tt "u2"%string 5))) by reflexivity.
  assert (Hfresh : forall t : Task Config,
             In t (tasks submitted) -> id t <> String.append "task-" "u2").
  { intros t Hin. vm_compute in Hin. destruct Hin as [<- | []]. vm_compute. discriminate. }
  destruct (createTask_then_findOne Config accept noRegion 3 jobIds half
              warmupNow "u2"%string [] 5 submitted
              (fst (create warmupNow "u2"%string [] 5 submitted))
              (newTask warmupNow tt "u2"%string 5) Hfresh Hcreate)
    as [Hfound Hothers].
  split; [exact Hcreate |]. split; [exact Hfound |].
  apply Hothers. vm_compute. discriminate.
Defined.

Lemma operations_leave_other_tasks_alone_witness :
  let st := fst (create warmupNow "u2"%string [] 5 submitted) in
  "task-u2"%string <> "task-u1"%string
  /\ findOne "task-u2"%string (cancel "task-u1"%string st) = findOne "task-u2"%string st
  /\ findOne "task-u2"%string (fst (retry "task-u1"%string 9 st))
     = findOne "task-u2"%string st
  /\ findOne "task-u2"%string (fst (process theJob (Returned done) at10 st))
     = findOne "task-u2"%string st.
Proof.
  assert (Hother : "task-u2"%string <> "task-u1"%string) by discriminate.
  destruct (operations_leave_other_tasks_alone Config 3 jobIds half
              "task-u1"%string "task-u2"%string theJob (Returned done) 9 at10
              (fst (create warmupNow "u2"%string [] 5 submitted)))
    as [Hcr Hproc].
  destruct (Hcr Hother) as [Hcancel Hretry].
  split; [exact Hother |]. split; [exact Hcancel |]. split; [exact Hretry |].
  exact (Hproc Hother).
Defined.

Lemma processTask_records_outcome_witness :
  findOne (id (data theJob)) submitted = Some (newTask warmupNow tt "u1"%string 0)
  /\ (exists st' t' result,
         process theJob (Returned (mkResult true None 0)) at10 submitted = (st', Ok result)
         /\ duration result = 9%Z
         /\ findOne (id (data theJob)) st' = Some t'
         /\ status t' = COMPLETED /\ taskResult t' = Some result
         /\ startedAt t' = Some 10%Z /\ completedAt t' = Some 19%Z)
  /\ (exists st' t',
         process (attempt 2 theJob) (Threw "timeout"%string) at10 submitted
         = (st', Err "timeout"%string)
         /\ findOne (id (data theJob)) st' = Some t'
         /\ status t' = FAILED /\ error t' = Some "timeout"%string
         /\ completedAt t' = Some 20%Z)
  /\ (exists st' t',
         process theJob (Threw "timeout"%string) at10 submitted
         = (st', Err "timeout"%string)
         /\ findOne (id (data theJob)) st' = Some t'
         /\ status t' = RUNNING /\ error t' = None)
  /\ (exists st' t' result,
         process (attempt 2 theJob) (ThrewAfterStore done "metrics down"%string) at10
                 submitted
         = (st', Err "metrics down"%string)
         /\ findOne (id (data theJob)) st' = Some t'
         /\ status t' = FAILED /\ error t' = Some "metrics down"%string
         /\ taskResult t' = Some result /\ success result = true)
  /\ (exists st' t' result,
         process theJob (ThrewAfterStore done "metrics down"%string) at10 submitted
         = (st', Err "metrics down"%string)
         /\ findOne (id (data theJob)) st' = Some t'
         /\ status t' = COMPLETED /\ error t' = None
         /\ taskResult t' = Some result /\ success result = true).
Proof.
  assert (Hfind : findOne (id (data theJob)) submitted
                  = Some (newTask warmupNow tt "u1"%string 0)) by reflexivity.
  split; [exact Hfind |]. split; [| split; [| split; [| split]]].
  - destruct (proj1 (processTask_records_outcome Config 3 theJob at10 submitted _ Hfind)
                    (mkResult true None 0))
      as (st' & t' & result & Hrun & _ & _ & Hd & Hf & Hs & Hr & Hstart & Hend & _).
    exists st', t', result. repeat (split; [assumption |]). assumption.
  - destruct (proj1 (proj2 (processTask_records_outcome Config 3 (attempt 2 theJob) at10
                              submitted _ Hfind)) "timeout"%string)
      as (st' & t' & Hrun & Hf & Hs & He & _ & Hend & _); [cbn; lia |].
    exists st', t'. repeat (split; [assumption |]). assumption.
  - destruct (proj1 (proj2 (proj2 (processTask_records_outcome Config 3 theJob at10
                                     submitted _ Hfind))) "timeout"%string)
      as (st' & t' & Hrun & Hf & Hs & _ & He & _); [cbn; lia |].
    exists st', t'. repeat (split; [assumption |]). assumption.
  - destruct (proj1 (proj2 (proj2 (proj2
                (processTask_records_outcome Config 3 (attempt 2 theJob) at10
                   submitted _ Hfind)))) done "metrics down"%string)
      as (st' & t' & result & Hrun & Hf & Hs & He & Hr & Hsucc & _); [cbn; lia |].
    exists st', t', result. repeat (split; [assumption |]). assumption.
  - destruct (proj2 (proj2 (proj2 (proj2
                (processTask_records_outcome Config 3 theJob at10
                   submitted _ Hfind)))) done "metrics down"%string)
      as (st' & t' & result & Hrun & Hf & Hs & He & Hr & Hsucc & _); [cbn; lia |].
    exists st', t', result. repeat (split; [assumption |]). assumption.
Defined.

Lemma scheduledTaskProcessor_readmits_each_tick_witness :
  let t := set_status SCHEDULED (newTask (warmupAt 100) tt "u1"%string 0) in
  let st := mkScheduler [t] [] 0 0 in
  (200 <= 300)%Z
  /\ dueScheduledTasks 200 st = [t]
  /\ map (@data Config)
         (queue (scheduledTaskProcessor 3 jobIds half 300
                   (scheduledTaskProcessor 3 jobIds half 200 st)))
     = map (@data Config) (queue st) ++ dueScheduledTasks 200 st ++ dueScheduledTasks 300 st.
Proof.
  split; [lia |]. split; [reflexivity |].
  apply (scheduledTaskProcessor_readmits_each_tick Config 3 jobIds half 200 300). lia.
Defined.

Lemma cancelTask_never_dequeues_witness :
  (forall n, String.prefix "task-" (jobIds n) = false)
  /\ String.prefix "task-" "task-u1" = true
  /\ queue (runOps [OpCreate warmupNow "u1"%string [] 0] (init Config)) = [theJob]
  /\ getJob "task-u1"%string (runOps [OpCreate warmupNow "u1"%string [] 0] (init Config))
     = None
  /\ queue (cancel "task-u1"%string
              (runOps [OpCreate warmupNow "u1"%string [] 0] (init Config)))
     = queue (runOps [OpCreate warmupNow "u1"%string [] 0] (init Config)).
Proof.
  assert (Hids : forall n, String.prefix "task-" (jobIds n) = false).
  { intros n. unfold jobIds. generalize (ascii_of_nat (49 + n)). intros c.
    cbn [String.prefix]. destruct (ascii_dec "t" c); reflexivity. }
  split; [exact Hids |]. split; [reflexivity |]. split; [reflexivity |].
  exact (cancelTask_never_dequeues Config accept noRegion 3 jobIds half
           [OpCreate warmupNow "u1"%string [] 0] "task-u1"%string Hids eq_refl).
Defined.

Lemma selectBestProfile_least_recently_active_witness :
  let moscow := fun _ : Config => Some "Moscow"%string in
  let profiles := [mkProfile "p1" "Moscow" 50; mkProfile "p2" "Kazan" 10;
                   mkProfile "p3" "Moscow" 20] in
  let task := newTask searchNow tt "u1"%string 0 in
  selectBestProfile moscow task profiles = Some (mkProfile "p3" "Moscow" 20)
  /\ region (mkProfile "p3" "Moscow" 20) = "Moscow"%string
  /\ (forall q, In q profiles -> region q = "Moscow"%string -> (20 <= lastActive q)%Z).
Proof.
  assert (Hsel : selectBestProfile (fun _ : Config => Some "Moscow"%string)
                   (newTask searchNow tt "u1"%string 0)
                   [mkProfile "p1" "Moscow" 50; mkProfile "p2" "Kazan" 10;
                    mkProfile "p3" "Moscow" 20]
                 = Some (mkProfile "p3" "Moscow" 20)) by reflexivity.
  destruct (proj1 (selectBestProfile_least_recently_active Config
                     (fun _ : Config => Some "Moscow"%string)
                     (newTask searchNow tt "u1"%string 0)
                     [mkProfile "p1" "Moscow" 50; mkProfile "p2" "Kazan" 10;
                      mkProfile "p3" "Moscow" 20]) _ Hsel) as [[_ Hregion] Hmin].
  split; [exact Hsel |]. split; [apply Hregion; [reflexivity | discriminate] |].
  intros q Hin Hq. apply (Hmin q). split; [exact Hin |].
  intros r [= <-] _. exact Hq.
Defined.

Lemma distributed_delay_bounds_witness :
  schedule (newTask (warmupWithin 1000 2000) tt "u1"%string 5000) = distributed 1000 2000
  /\ exists (job : Job Config) (d : Q),
      queue (scheduleTask 3 jobIds half
               (newTask (warmupWithin 1000 2000) tt "u1"%string 5000) 5000 (init Config))
      = queue (init Config) ++ [job]
      /\ delay (opts job) = Some d
      /\ (0 <= d)%Q
      /\ (d == 0)%Q.
Proof.
  split; [reflexivity |].
  destruct (distributed_delay_bounds Config 3 jobIds half
              (newTask (warmupWithin 1000 2000) tt "u1"%string 5000) 5000 (init Config)
              1000 2000 eq_refl) as [job [d [Hq [Hd [Hpos [_ Hzero]]]]]].
  exists job, d. split; [exact Hq |]. split; [exact Hd |]. split; [exact Hpos |].
  apply Hzero; try lia; try reflexivity; unfold half, Qle, Qlt; cbn; lia.
Defined.

Lemma checkGoals_achieved_witness :
  let cart := mkGoal "pageview" "cart" true in
  let purchase := mkGoal "event" "purchase" true in
  let goals := [cart; purchase; mkGoal "conversion" "signup" false] in
  In cart (checkGoals "https://shop.example/cart" goals)
  /\ ~ In purchase (checkGoals "https://shop.example/cart" goals).
Proof.
  destruct (checkGoals_achieved "https://shop.example/cart"
              [mkGoal "pageview" "cart" true; mkGoal "event" "purchase" true;
               mkGoal "conversion" "signup" false]) as [Hiff [Hnever _]].
  split.
  - apply Hiff. split; [left; reflexivity |]. right. right. right.
    split; [reflexivity |]. exists "https://shop.example/"%string, ""%string. reflexivity.
  - apply Hnever; [reflexivity | left; reflexivity].
Defined.

End SchedulerMore.
